(** * Yearly overview of streak-calendar: contribution grid, month labels,
      completion counts and colour buckets.

    Shallow embedding of the [YearlyOverview] component (found at the end of
    src/components/calendar/calendar-dialogs.tsx) together with the parts of
    the JavaScript [Date] object and of date-fns that it calls:
    [subYears], [eachDayOfInterval], [getDay] and [format] with the tokens
    [yyyy], [MM], [dd] and [MMM].

    - A [Date] is its time value, an integer number of milliseconds; a
      JavaScript number that holds a count is an integer.
    - Local time is UTC plus a constant offset, a parameter of the model.
    - A [Record<string, number>] is a [gmap string Z]: what is proved about
      it is about the mapping, not about the order in which JavaScript
      lists its keys.
    - The two [useMemo] blocks are the functions [calendarSkeleton], of the
      current time, and [completionCounts], of the list of completions. *)

From Stdlib Require Import ZArith Lia String Ascii DecimalString DecimalN.
From stdpp Require Import gmap strings list fin_maps.

Local Open Scope Z_scope.

(** ** ECMAScript time values

    A [Date] holds one number, its time value: milliseconds since
    1970-01-01T00:00:00Z.  The definitions below follow the abstract
    operations of ECMA-262 (section "Time Values and Time Range"); integers
    are unbounded here, the range check of [TimeClip] is not modelled. *)

Module ES.

Definition msPerDay : Z := 86400000.

Definition Day (t : Z) : Z := t / msPerDay.

Definition TimeWithinDay (t : Z) : Z := t mod msPerDay.

Definition isLeapYear (y : Z) : bool :=
  ((y mod 4 =? 0) && negb (y mod 100 =? 0)) || (y mod 400 =? 0).

Definition DaysInYear (y : Z) : Z := if isLeapYear y then 366 else 365.

Definition DayFromYear (y : Z) : Z :=
  365 * (y - 1970) + (y - 1969) / 4 - (y - 1901) / 100 + (y - 1601) / 400.

(** [YearFromTime t] is the largest [y] with [TimeFromYear y <= t].  The
    estimate [1970 + 400 * d / 146097] is off by at most one year, so two
    comparisons find it (lemma [YearFromDay_spec]). *)
Definition YearFromDay (d : Z) : Z :=
  let y := 1970 + (400 * d) / 146097 in
  if DayFromYear (y + 1) <=? d then y + 1
  else if DayFromYear y <=? d then y
  else y - 1.

Definition YearFromTime (t : Z) : Z := YearFromDay (Day t).

Definition DayWithinYear (t : Z) : Z := Day t - DayFromYear (YearFromTime t).

Definition InLeapYear (t : Z) : Z :=
  if isLeapYear (YearFromTime t) then 1 else 0.

(** Number of days of the year that precede month [m] (0 = January); the
    thresholds of [MonthFromTime]. [leap] is 0 or 1. *)
Definition daysBeforeMonth (leap m : Z) : Z :=
  if m <=? 0 then 0
  else if m =? 1 then 31
  else if m =? 2 then 59 + leap
  else if m =? 3 then 90 + leap
  else if m =? 4 then 120 + leap
  else if m =? 5 then 151 + leap
  else if m =? 6 then 181 + leap
  else if m =? 7 then 212 + leap
  else if m =? 8 then 243 + leap
  else if m =? 9 then 273 + leap
  else if m =? 10 then 304 + leap
  else if m =? 11 then 334 + leap
  else 365 + leap.

Definition MonthOfYearDay (leap dwy : Z) : Z :=
  if dwy <? 31 then 0
  else if dwy <? 59 + leap then 1
  else if dwy <? 90 + leap then 2
  else if dwy <? 120 + leap then 3
  else if dwy <? 151 + leap then 4
  else if dwy <? 181 + leap then 5
  else if dwy <? 212 + leap then 6
  else if dwy <? 243 + leap then 7
  else if dwy <? 273 + leap then 8
  else if dwy <? 304 + leap then 9
  else if dwy <? 334 + leap then 10
  else 11.

Definition MonthFromTime (t : Z) : Z :=
  MonthOfYearDay (InLeapYear t) (DayWithinYear t).

Definition DateFromTime (t : Z) : Z :=
  DayWithinYear t - daysBeforeMonth (InLeapYear t) (MonthFromTime t) + 1.

(** 1970-01-01 was a Thursday; 0 = Sunday. *)
Definition WeekDay (t : Z) : Z := (Day t + 4) mod 7.

(** [MakeDay year month date]: the day number of the first of the month
    [month] (any integer, carried into the year) plus [date - 1]. *)
Definition MakeDay (year month date : Z) : Z :=
  let ym := year + month / 12 in
  let mn := month mod 12 in
  DayFromYear ym + daysBeforeMonth (if isLeapYear ym then 1 else 0) mn
  + date - 1.

Definition MakeDate (day time : Z) : Z := day * msPerDay + time.

End ES.

Import ES.


(** ** The [Date] object and date-fns

    [LocalTZA] is the offset of local time from UTC in milliseconds.  It is
    taken constant: daylight-saving transitions are outside the model. *)

(** A slot of the grid is a day key or [null]; a week is a run of slots. *)
Abbreviation Week := (list (option string)).

Section WithTimeZone.

Variable LocalTZA : Z.

Definition LocalTime (t : Z) : Z := t + LocalTZA.
Definition UTC (t : Z) : Z := t - LocalTZA.

Definition getFullYear (date : Z) : Z := YearFromTime (LocalTime date).
Definition getMonth (date : Z) : Z := MonthFromTime (LocalTime date).
Definition getDate (date : Z) : Z := DateFromTime (LocalTime date).

(** [Date.prototype.getDay], which is also date-fns [getDay]. *)
Definition getDay (date : Z) : Z := WeekDay (LocalTime date).

(** [date.setMonth(month, dt)] *)
Definition setMonth2 (date month dt : Z) : Z :=
  let t := LocalTime date in
  UTC (MakeDate (MakeDay (YearFromTime t) month dt) (TimeWithinDay t)).

(** [date.setMonth(month)]: the day of the month is kept as it is, so a day
    the target month does not have runs over into the following month. *)
Definition setMonth (date month : Z) : Z :=
  setMonth2 date month (getDate date).

(** [date.setDate(dt)] *)
Definition setDate (date dt : Z) : Z :=
  let t := LocalTime date in
  UTC (MakeDate (MakeDay (YearFromTime t) (MonthFromTime t) dt)
         (TimeWithinDay t)).

(** [date.setFullYear(year, month, dt)] *)
Definition setFullYear (date year month dt : Z) : Z :=
  let t := LocalTime date in
  UTC (MakeDate (MakeDay year month dt) (TimeWithinDay t)).

(** [date.setHours(0, 0, 0, 0)] *)
Definition setHours0 (date : Z) : Z :=
  UTC (MakeDate (Day (LocalTime date)) 0).

(** date-fns [addMonths]. *)
Definition addMonths (date amount : Z) : Z :=
  if amount =? 0 then date
  else
    let dayOfMonth := getDate date in
    let endOfDesiredMonth := setMonth2 date (getMonth date + amount + 1) 0 in
    let daysInMonth := getDate endOfDesiredMonth in
    if dayOfMonth >=? daysInMonth then endOfDesiredMonth
    else setFullYear date (getFullYear endOfDesiredMonth)
           (getMonth endOfDesiredMonth) dayOfMonth.

Definition addYears (date amount : Z) : Z := addMonths date (amount * 12).

Definition subYears (date amount : Z) : Z := addYears date (- amount).

(** date-fns [eachDayOfInterval], for [start <= end]:
<<
    const currentDate = startDate; currentDate.setHours(0, 0, 0, 0);
    while (currentDate.getTime() <= endTime) {
      dates.push(toDate(currentDate));
      currentDate.setDate(currentDate.getDate() + 1);
      currentDate.setHours(0, 0, 0, 0);
    }
>>
    [startDate] is a copy, so the caller's [yearAgo] is not changed.  The
    loop is run with a bound on its iterations; [None] means that the bound
    was reached (it never is: [eachDayOfInterval_returns]). *)
Fixpoint eachDay_loop (fuel : nat) (currentDate endTime : Z) (dates : list Z)
  : option (list Z) :=
  match fuel with
  | O => None
  | S fuel' =>
      if currentDate <=? endTime then
        eachDay_loop fuel'
          (setHours0 (setDate currentDate (getDate currentDate + 1)))
          endTime (dates ++ [currentDate])
      else Some dates
  end.

Definition eachDayOfInterval (startDate endDate : Z) : option (list Z) :=
  eachDay_loop (Z.to_nat ((endDate - startDate) / msPerDay + 3))
    (setHours0 startDate) endDate [].

(** *** date-fns [format]

    [addLeadingZeros number targetLength]:
    [sign + Math.abs(number).toString().padStart(targetLength, "0")]. *)
Definition toString (n : N) : string :=
  NilEmpty.string_of_uint (N.to_uint n).

Fixpoint zeros (n : nat) : string :=
  match n with
  | O => EmptyString
  | S n' => String "0" (zeros n')
  end.

Definition padStart0 (s : string) (targetLength : nat) : string :=
  (zeros (targetLength - String.length s)%nat ++ s)%string.

Definition addLeadingZeros (number : Z) (targetLength : nat) : string :=
  ((if Z.ltb number 0 then "-" else EmptyString)
   ++ padStart0 (toString (Z.abs_N number)) targetLength)%string.

(** Token [yyyy]: the year of the era, so that year 0 (1 BC) prints as 1. *)
Definition format_yyyy (date : Z) : string :=
  let signedYear := getFullYear date in
  let year := if signedYear >? 0 then signedYear else 1 - signedYear in
  addLeadingZeros year 4.

Definition format_MM (date : Z) : string :=
  addLeadingZeros (getMonth date + 1) 2.

Definition format_dd (date : Z) : string :=
  addLeadingZeros (getDate date) 2.

(** Token [MMM] in the default (en-US) locale. *)
Definition monthAbbreviated : list string :=
  ["Jan"; "Feb"; "Mar"; "Apr"; "May"; "Jun";
   "Jul"; "Aug"; "Sep"; "Oct"; "Nov"; "Dec"]%string.

Definition format_MMM (date : Z) : string :=
  nth (Z.to_nat (getMonth date)) monthAbbreviated EmptyString.

(** [format(date, "yyyy-MM-dd")] *)
Definition format_yyyy_MM_dd (date : Z) : string :=
  (format_yyyy date ++ "-" ++ format_MM date ++ "-" ++ format_dd date)%string.

(** [format(date, "MMM yyyy")] *)
Definition format_MMM_yyyy (date : Z) : string :=
  (format_MMM date ++ " " ++ format_yyyy date)%string.

(** ** The [YearlyOverview] component *)

Record Completion := { habitId : string; completedAt : Z }.

Record MonthLabel := { key : string; label : string }.

(** The body of [days.forEach], on the pair [(weeks, currentWeek)]. *)
Definition pushDay (st : list Week * Week) (day : string) : list Week * Week :=
  let (weeks, currentWeek) :=
    if Nat.eqb (length st.2) 7 then (st.1 ++ [st.2], []) else st in
  (weeks, currentWeek ++ [Some day]).

(** [while (currentWeek.length < 7) currentWeek.push(null)]; seven rounds are
    enough for a week of any length. *)
Fixpoint padWeek (fuel : nat) (currentWeek : Week) : Week :=
  match fuel with
  | O => currentWeek
  | S fuel' =>
      if Nat.ltb (length currentWeek) 7
      then padWeek fuel' (currentWeek ++ [None])
      else currentWeek
  end.

Definition buildWeeks (firstDayOfWeek : Z) (days : list string) : list Week :=
  let emptyStartDays : Week := replicate (Z.to_nat firstDayOfWeek) None in
  let (weeks, currentWeek) := fold_left pushDay days ([], emptyStartDays) in
  if Nat.ltb 0 (length currentWeek)
  then weeks ++ [padWeek 7 currentWeek]
  else weeks.

(** The body of the loop [for (let i = 0; i <= 12; i++)]. *)
Definition monthLabel (yearAgo i : Z) : MonthLabel :=
  let date := setMonth yearAgo (getMonth yearAgo + i) in
  {| key := format_MMM_yyyy date; label := format_MMM date |}.

Definition monthLabels (yearAgo : Z) : list MonthLabel :=
  map (monthLabel yearAgo) (seqZ 0 13).

(** The first [useMemo]: [today] is the value of [new Date()]. *)
Definition calendarSkeleton (today : Z)
  : option (list Week * list MonthLabel) :=
  let yearAgo := subYears today 1 in
  dates ← eachDayOfInterval yearAgo today;
  let days := map format_yyyy_MM_dd dates in
  let firstDayOfWeek := getDay yearAgo in
  Some (buildWeeks firstDayOfWeek days, monthLabels yearAgo).

(** [x || 0] on a possibly missing number. *)
Definition orZero (x : option Z) : Z :=
  match x with
  | Some v => if v =? 0 then 0 else v
  | None => 0
  end.

(** The second [useMemo]; [counts] is a [Record<string, number>]. *)
Definition countCompletion (counts : gmap string Z) (completion : Completion)
  : gmap string Z :=
  let date := completedAt completion in
  let dateKey := format_yyyy_MM_dd date in
  <[dateKey := orZero (counts !! dateKey) + 1]> counts.

Definition completionCounts (completions : list Completion) : gmap string Z :=
  fold_left countCompletion completions ∅.

(** The count shown by [GridCell]: [completionCounts[day] || 0]. *)
Definition cellCount (counts : gmap string Z) (day : string) : Z :=
  orZero (counts !! day).

End WithTimeZone.

Definition getColorClass (count : Z) : string :=
  if count =? 0 then "bg-neutral-100 dark:bg-neutral-800"
  else if count <=? 2 then "bg-emerald-200 dark:bg-emerald-500"
  else if count <=? 5 then "bg-emerald-300 dark:bg-emerald-600"
  else if count <=? 10 then "bg-emerald-400 dark:bg-emerald-700"
  else "bg-emerald-500 dark:bg-emerald-800".

(** [Object.values(counts)]; the sum below does not depend on the order in
    which the values are listed. *)
Definition Object_values (counts : gmap string Z) : list Z :=
  (map_to_list counts).*2.

(** [Object.values(completionCounts).reduce((sum, count) => sum + count, 0)] *)
Definition totalCompletions (counts : gmap string Z) : Z :=
  fold_left (fun sum count => sum + count) (Object_values counts) 0.

(** ** The cells of the grid

    [GridCell], the React key of a cell, and [new Date(day)] on the day
    keys. *)

(** The value of a decimal digit. *)
Definition digitValue (c : ascii) : option Z :=
  let n := Z.of_N (N_of_ascii c) in
  if (48 <=? n) && (n <=? 57) then Some (n - 48) else None.

(** The time value of a date given by the digits of its date-only form. *)
Definition Date_of_digits (y1 y2 y3 y4 m1 m2 d1 d2 : Z) : option Z :=
  let year := 1000 * y1 + 100 * y2 + 10 * y3 + y4 in
  let month := 10 * m1 + m2 in
  let day := 10 * d1 + d2 in
  let leap := if isLeapYear year then 1 else 0 in
  if (1 <=? month) && (month <=? 12) && (1 <=? day)
     && (day <=? daysBeforeMonth leap month - daysBeforeMonth leap (month - 1))
  then Some (MakeDate (MakeDay year (month - 1) day) 0)
  else None.

(** [new Date(s)] for a string in the date-only form [YYYY-MM-DD] of
    ECMA-262, which is read as UTC: the time value of midnight UTC of that
    day.  The other forms, and a month or a day that does not exist, are
    outside the model ([None]). *)
Definition Date_parse (s : string) : option Z :=
  match s with
  | String y1 (String y2 (String y3 (String y4 (String s1
      (String m1 (String m2 (String s2 (String d1 (String d2
         EmptyString))))))))) =>
      if Ascii.eqb s1 "-" && Ascii.eqb s2 "-" then
        y1 ← digitValue y1; y2 ← digitValue y2;
        y3 ← digitValue y3; y4 ← digitValue y4;
        m1 ← digitValue m1; m2 ← digitValue m2;
        d1 ← digitValue d1; d2 ← digitValue d2;
        Date_of_digits y1 y2 y3 y4 m1 m2 d1 d2
      else None
  | _ => None
  end.

(** [String(n)] for an integer [n]. *)
Definition Number_toString (n : Z) : string :=
  ((if Z.ltb n 0 then "-" else EmptyString) ++ toString (Z.abs_N n))%string.

(** What [GridCell] renders: an empty box, or a box with a class and a
    title. *)
Inductive CellView :=
| EmptyCell
| DayCell (className title : string).

Definition cellClassName (count : Z) : string :=
  ("aspect-square w-[15px] max-w-full sm:w-4 rounded-sm transition-colors hover:opacity-80 relative "
   ++ getColorClass count)%string.

Section Cells.

Variable LocalTZA : Z.

(** Token [d]: the day of the month without padding. *)
Definition format_d (date : Z) : string :=
  addLeadingZeros (getDate LocalTZA date) 1.

(** [format(date, "MMM d, yyyy")] *)
Definition format_MMM_d_yyyy (date : Z) : string :=
  (format_MMM LocalTZA date ++ " " ++ format_d date ++ ", "
   ++ format_yyyy LocalTZA date)%string.

(** The title of a day cell. *)
Definition cellTitle (date count : Z) : string :=
  (format_MMM_d_yyyy date ++ ": " ++ Number_toString count
   ++ " completions")%string.

(** [GridCell]; [!day] holds for [null] and for the empty string.  The
    result is [None] where [new Date(day)] is outside the model. *)
Definition GridCell (completionCounts : gmap string Z) (day : option string)
  : option CellView :=
  match day with
  | None => Some EmptyCell
  | Some day =>
      if String.eqb day EmptyString then Some EmptyCell
      else
        let count := orZero (completionCounts !! day) in
        date ← Date_parse day;
        Some (DayCell (cellClassName count) (cellTitle date count))
  end.

End Cells.

(** [day || `empty-${weekIndex}-${dayIndex}`], the React key of a cell. *)
Definition cellKey (weekIndex dayIndex : nat) (day : option string) : string :=
  let empty :=
    ("empty-" ++ toString (N.of_nat weekIndex) ++ "-"
     ++ toString (N.of_nat dayIndex))%string in
  match day with
  | None => empty
  | Some day => if String.eqb day EmptyString then empty else day
  end.

(** The keys of the cells of [week.map((day, dayIndex) => ...)]. *)
Definition weekKeys (weekIndex : nat) (week : Week) : list string :=
  imap (cellKey weekIndex) week.

(** ** The dialogs

    The tables of the colour and timer selects, the hooks that translate
    them, and the handlers of the selects (the same in the dialogs for a new
    and for an existing calendar or habit). *)

(** A JavaScript number that is an integer or [NaN]. *)
Inductive JSNumber :=
| NaN
| Int (n : Z).

(** *** [parseInt(string)], without a radix

    Leading white space is dropped, then a sign, then [0x] or [0X], which
    makes the radix 16; the longest run of digits of the radix is the
    number, and there is none without a digit.  Strings are byte strings
    here, so the white space is the ASCII one. *)
Definition isWhiteSpace (c : ascii) : bool :=
  let n := N_of_ascii c in
  ((n =? 9) || (n =? 10) || (n =? 11) || (n =? 12) || (n =? 13)
   || (n =? 32))%N.

Fixpoint trimStart (s : string) : string :=
  match s with
  | EmptyString => EmptyString
  | String c rest => if isWhiteSpace c then trimStart rest else s
  end.

Definition digitOfRadix (radix : Z) (c : ascii) : option Z :=
  let n := Z.of_N (N_of_ascii c) in
  let v :=
    if (48 <=? n) && (n <=? 57) then Some (n - 48)
    else if (97 <=? n) && (n <=? 122) then Some (n - 87)
    else if (65 <=? n) && (n <=? 90) then Some (n - 55)
    else None in
  match v with
  | Some d => if d <? radix then Some d else None
  | None => None
  end.

(** The value of the longest prefix of digits; [acc] is the value of the
    digits read so far, [None] before the first one. *)
Fixpoint parseDigitsPrefix (radix : Z) (s : string) (acc : option Z)
  : option Z :=
  match s with
  | EmptyString => acc
  | String c rest =>
      match digitOfRadix radix c with
      | Some d =>
          parseDigitsPrefix radix rest
            (Some (radix * match acc with Some a => a | None => 0 end + d))
      | None => acc
      end
  end.

Definition parseInt (s : string) : JSNumber :=
  let s := trimStart s in
  let (sign, s) :=
    match s with
    | String "-" rest => (-1, rest)
    | String "+" rest => (1, rest)
    | _ => (1, s)
    end in
  let (radix, s) :=
    match s with
    | String "0" (String x rest) =>
        if Ascii.eqb x "x" || Ascii.eqb x "X" then (16, rest) else (10, s)
    | _ => (10, s)
    end in
  match parseDigitsPrefix radix s None with
  | Some n => Int (sign * n)
  | None => NaN
  end.

Module Dialogs.

Definition COLOR_VALUES : list (string * string) :=
  [ ("red", "bg-red-500"); ("orange", "bg-orange-500");
    ("amber", "bg-amber-500"); ("yellow", "bg-yellow-500");
    ("lime", "bg-lime-500"); ("green", "bg-green-500");
    ("emerald", "bg-emerald-500"); ("teal", "bg-teal-500");
    ("cyan", "bg-cyan-500"); ("sky", "bg-sky-500");
    ("blue", "bg-blue-500"); ("indigo", "bg-indigo-500");
    ("violet", "bg-violet-500"); ("purple", "bg-purple-500");
    ("fuchsia", "bg-fuchsia-500"); ("pink", "bg-pink-500");
    ("rose", "bg-rose-500") ]%string.


(** An entry of a select: a translated name and a value. *)
Record SelectOption (A : Type) := { name : string; value : A }.

Arguments name {A} _.
Arguments value {A} _.

Section Translated.

(** The message of a key, as [useTranslations] gives it. *)
Variable t : string -> string.

Definition useColors : list (SelectOption string) :=
  map (fun entry => {| name := t entry.1; value := entry.2 |}) COLOR_VALUES.


(** [colors.find((c) => c.value === color)?.name], the name shown in the
    trigger of the colour select. *)
Definition selectedColorName (color : string) : option string :=
  name <$> find (fun c => String.eqb (value c) color) useColors.


End Translated.



End Dialogs.

(** ** Locales

    The locale of a request (the request configuration of next-intl) and
    the locale layout.  The lists of locales and the default locale are
    declared in modules that are not at hand: they are parameters. *)

(** [array.includes(x)] on strings. *)
Definition includes (x : string) (array : list string) : bool :=
  existsb (String.eqb x) array.

Section RequestLocale.

(** [routing.locales] and [routing.defaultLocale]. *)
Variable locales : list string.
Variable defaultLocale : string.

(** The [locale] that the request configuration returns for the value of
    [await requestLocale]; [!locale] holds for [undefined] and for the
    empty string. *)
Definition resolveRequestLocale (requestLocale : option string) : string :=
  match requestLocale with
  | None => defaultLocale
  | Some locale =>
      if String.eqb locale EmptyString || negb (includes locale locales)
      then defaultLocale
      else locale
  end.

End RequestLocale.

Section LocaleLayout.

(** [locales] and [defaultLocale] of the settings. *)
Variable locales : list string.
Variable defaultLocale : string.

(** [generateStaticParams]: the [locale] fields of the parameters. *)
Definition generateStaticParams : list string :=
  filter (fun locale => locale <> defaultLocale) locales.

(** [LocaleLayout] calls [notFound()] for a locale that is not supported. *)
Definition layoutCallsNotFound (locale : string) : bool :=
  negb (includes locale locales).

End LocaleLayout.

(** ** Vocabulary of the statements

    Nothing below is code of the component: these definitions name what the
    lemmas and the claims talk about. *)

(** Length of month [m] (0 = January) in a year with [leap] leap days. *)
Definition daysInMonth (leap m : Z) : Z :=
  daysBeforeMonth leap (m + 1) - daysBeforeMonth leap m.

(** 1 for a leap year, 0 otherwise. *)
Definition leapDays (y : Z) : Z := if isLeapYear y then 1 else 0.

(** Number of [null] slots at the start of a week. *)
Fixpoint leadingEmpty (week : Week) : nat :=
  match week with
  | None :: rest => S (leadingEmpty rest)
  | _ => O
  end.

(** The day keys of a run of slots, the [null]s dropped. *)
Fixpoint realDays (slots : Week) : list string :=
  match slots with
  | [] => []
  | Some day :: rest => day :: realDays rest
  | None :: rest => realDays rest
  end.

(** Number of [null] slots at the end of a week. *)
Definition trailingEmpty (week : Week) : nat := leadingEmpty (rev week).

(** The sum of the counts that the day cells of a grid show. *)
Definition cellCountsSum (counts : gmap string Z) (weeks : list Week) : Z :=
  foldr Z.add 0 (map (cellCount counts) (realDays (concat weeks))).

(** The character of a decimal digit. *)
Definition digitChar (k : Z) : ascii := ascii_of_N (Z.to_N (48 + k)).

(** A number below 10000 in four digits, and one below 100 in two. *)
Definition fourDigits (n : Z) : string :=
  String (digitChar (n / 1000)) (String (digitChar (n / 100 mod 10))
    (String (digitChar (n / 10 mod 10)) (String (digitChar (n mod 10))
       EmptyString))).

Definition twoDigits (n : Z) : string :=
  String (digitChar (n / 10)) (String (digitChar (n mod 10)) EmptyString).

(** The value of a run of decimal digits that follows digits of value
    [acc]. *)
Fixpoint uintValue (u : Decimal.uint) (acc : Z) : Z :=
  match u with
  | Decimal.Nil => acc
  | Decimal.D0 l => uintValue l (10 * acc)
  | Decimal.D1 l => uintValue l (10 * acc + 1)
  | Decimal.D2 l => uintValue l (10 * acc + 2)
  | Decimal.D3 l => uintValue l (10 * acc + 3)
  | Decimal.D4 l => uintValue l (10 * acc + 4)
  | Decimal.D5 l => uintValue l (10 * acc + 5)
  | Decimal.D6 l => uintValue l (10 * acc + 6)
  | Decimal.D7 l => uintValue l (10 * acc + 7)
  | Decimal.D8 l => uintValue l (10 * acc + 8)
  | Decimal.D9 l => uintValue l (10 * acc + 9)
  end.

(** [parseInt] after the white space and the sign. *)
Definition parseIntUnsigned (sign : Z) (s : string) : JSNumber :=
  let (radix, s) :=
    match s with
    | String "0" (String x rest) =>
        if Ascii.eqb x "x" || Ascii.eqb x "X" then (16, rest) else (10, s)
    | _ => (10, s)
    end in
  match parseDigitsPrefix radix s None with
  | Some n => Int (sign * n)
  | None => NaN
  end.

(** A week with all its 7 slots. *)
Definition fullWeek (week : Week) : Prop := length week = 7%nat.

(** Reading a run of decimal digits back. *)
Definition parseDigits (s : string) : option N :=
  option_map N.of_uint (NilEmpty.uint_of_string s).

(** [format(date, "yyyy-MM-dd")] in terms of the three fields. *)
Definition formatFields (year month date : Z) : string :=
  (addLeadingZeros (if year >? 0 then year else 1 - year) 4 ++ "-"
   ++ addLeadingZeros (month + 1) 2 ++ "-" ++ addLeadingZeros date 2)%string.

Section Vocabulary.

Variable tz : Z.

(** The time value of local noon on the given day ([month] from 0). *)
Definition noonOf (year month date : Z) : Z :=
  UTC tz (MakeDate (MakeDay year month date) (12 * 3600000)).

(** Local midnight of day number [d], as a time value. *)
Definition midnight (d : Z) : Z := UTC tz (MakeDate d 0).

(** The local day number of [subYears today 1]: same month and day of the
    month one year earlier, 29 February becoming 28 February. *)
Definition yearAgoDay (today : Z) : Z :=
  let t := LocalTime tz today in
  MakeDay (YearFromTime t - 1) (MonthFromTime t)
    (Z.min (DateFromTime t)
       (daysInMonth (leapDays (YearFromTime t - 1)) (MonthFromTime t))).

(** The key of the local day with number [d]. *)
Definition dayKey (d : Z) : string := format_yyyy_MM_dd tz (midnight d).

(** The day keys of the window of [today], in order. *)
Definition windowDays (today : Z) : list string :=
  let d0 := Day (LocalTime tz (subYears tz today 1)) in
  let d1 := Day (LocalTime tz today) in
  map dayKey (seqZ d0 (d1 - d0 + 1)).

(** The day key an event is counted under. *)
Definition dateKeyOf (completion : Completion) : string :=
  format_yyyy_MM_dd tz (completedAt completion).

(** Number of events of a list that fall under the key [k]. *)
Fixpoint occurrences (k : string) (completions : list Completion) : Z :=
  match completions with
  | [] => 0
  | c :: rest =>
      (if decide (dateKeyOf c = k) then 1 else 0) + occurrences k rest
  end.

End Vocabulary.

(** All stored counts are at least 1. *)
Definition positiveCounts (counts : gmap string Z) : Prop :=
  forall k v, counts !! k = Some v -> 1 <= v.

(** The five colour buckets. *)
Inductive ColorBucket := BucketEmpty | BucketLow | BucketMedium | BucketHigh | BucketMax.

(** The buckets in their order. *)
Definition bucketRank (b : ColorBucket) : Z :=
  match b with
  | BucketEmpty => 0
  | BucketLow => 1
  | BucketMedium => 2
  | BucketHigh => 3
  | BucketMax => 4
  end.

(** The class names by which [getColorClass] tells the buckets apart. *)
Definition bucketClass (b : ColorBucket) : string :=
  match b with
  | BucketEmpty => "bg-neutral-100 dark:bg-neutral-800"
  | BucketLow => "bg-emerald-200 dark:bg-emerald-500"
  | BucketMedium => "bg-emerald-300 dark:bg-emerald-600"
  | BucketHigh => "bg-emerald-400 dark:bg-emerald-700"
  | BucketMax => "bg-emerald-500 dark:bg-emerald-800"
  end.

(** The table of the specification: 0, 1-2, 3-5, 6-10, 11 and more. *)
Definition spec_colorBucketFor (count : Z) : option ColorBucket :=
  if count =? 0 then Some BucketEmpty
  else if (1 <=? count) && (count <=? 2) then Some BucketLow
  else if (3 <=? count) && (count <=? 5) then Some BucketMedium
  else if (6 <=? count) && (count <=? 10) then Some BucketHigh
  else if 11 <=? count then Some BucketMax
  else None.

(** ** Calendar arithmetic *)

Lemma DayFromYear_succ y : DayFromYear (y + 1) = DayFromYear y + DaysInYear y.
Proof.
  unfold DayFromYear, DaysInYear, isLeapYear.
  destruct (Z.eqb_spec (y mod 4) 0), (Z.eqb_spec (y mod 100) 0),
    (Z.eqb_spec (y mod 400) 0); cbn [andb negb orb];
    Z.div_mod_to_equations; lia.
Qed.

Lemma YearFromDay_spec d :
  DayFromYear (YearFromDay d) <= d < DayFromYear (YearFromDay d + 1).
Proof.
  unfold YearFromDay.
  set (y := 1970 + 400 * d / 146097).
  assert (Hlo : DayFromYear (y - 1) <= d).
  { unfold DayFromYear, y. Z.div_mod_to_equations. lia. }
  assert (Hhi : d < DayFromYear (y + 2)).
  { unfold DayFromYear, y. Z.div_mod_to_equations. lia. }
  destruct (Z.leb_spec (DayFromYear (y + 1)) d).
  - replace (y + 1 + 1) with (y + 2) by lia. lia.
  - destruct (Z.leb_spec (DayFromYear y) d).
    + lia.
    + replace (y - 1 + 1) with y by lia. lia.
Qed.

Lemma DaysInYear_cases y :
  (isLeapYear y = true /\ DaysInYear y = 366) \/
  (isLeapYear y = false /\ DaysInYear y = 365).
Proof. unfold DaysInYear. destruct (isLeapYear y); auto. Qed.

Lemma DayFromYear_lt y1 y2 : y1 < y2 -> DayFromYear y1 < DayFromYear y2.
Proof.
  intros H. unfold DayFromYear. Z.div_mod_to_equations. lia.
Qed.

Lemma YearFromDay_unique y d :
  DayFromYear y <= d < DayFromYear (y + 1) -> YearFromDay d = y.
Proof.
  intros H. pose proof (YearFromDay_spec d) as S.
  destruct (Z.lt_trichotomy (YearFromDay d) y) as [L | [E | G]]; [ | exact E | ].
  - assert (DayFromYear (YearFromDay d + 1) <= DayFromYear y).
    { destruct (Z.eq_dec (YearFromDay d + 1) y) as [-> | N]; [lia | ].
      apply Z.lt_le_incl, DayFromYear_lt. lia. }
    lia.
  - assert (DayFromYear (y + 1) <= DayFromYear (YearFromDay d)).
    { destruct (Z.eq_dec (y + 1) (YearFromDay d)) as [-> | N]; [lia | ].
      apply Z.lt_le_incl, DayFromYear_lt. lia. }
    lia.
Qed.

Lemma msPerDay_pos : 0 < msPerDay.
Proof. reflexivity. Qed.

Lemma TimeWithinDay_range t : 0 <= TimeWithinDay t < msPerDay.
Proof. apply Z.mod_pos_bound, msPerDay_pos. Qed.

Lemma MakeDate_Day_TimeWithinDay t : MakeDate (Day t) (TimeWithinDay t) = t.
Proof.
  unfold MakeDate, Day, TimeWithinDay, msPerDay.
  Z.div_mod_to_equations. lia.
Qed.

Lemma Day_ge d t : d <= Day t <-> d * msPerDay <= t.
Proof. unfold Day, msPerDay. Z.div_mod_to_equations. lia. Qed.

Lemma Day_MakeDate d tm : 0 <= tm < msPerDay -> Day (MakeDate d tm) = d.
Proof.
  intros H. unfold Day, MakeDate.
  rewrite Z.add_comm, Z.div_add by discriminate.
  rewrite Z.div_small by exact H. reflexivity.
Qed.

Lemma TimeWithinDay_MakeDate d tm :
  0 <= tm < msPerDay -> TimeWithinDay (MakeDate d tm) = tm.
Proof.
  intros H. unfold TimeWithinDay, MakeDate.
  rewrite Z.add_comm, Z.mod_add by discriminate.
  apply Z.mod_small, H.
Qed.

Lemma InLeapYear_cases t :
  (isLeapYear (YearFromTime t) = true /\ InLeapYear t = 1) \/
  (isLeapYear (YearFromTime t) = false /\ InLeapYear t = 0).
Proof. unfold InLeapYear. destruct (isLeapYear _); auto. Qed.

Lemma DayWithinYear_range t :
  0 <= DayWithinYear t < 365 + InLeapYear t.
Proof.
  unfold DayWithinYear, YearFromTime.
  pose proof (YearFromDay_spec (Day t)) as S.
  rewrite DayFromYear_succ in S.
  unfold InLeapYear, YearFromTime, DaysInYear in *.
  destruct (isLeapYear _); lia.
Qed.

Lemma daysBeforeMonth_table leap :
  daysBeforeMonth leap 0 = 0 /\ daysBeforeMonth leap 1 = 31 /\
  daysBeforeMonth leap 2 = 59 + leap /\ daysBeforeMonth leap 3 = 90 + leap /\
  daysBeforeMonth leap 4 = 120 + leap /\ daysBeforeMonth leap 5 = 151 + leap /\
  daysBeforeMonth leap 6 = 181 + leap /\ daysBeforeMonth leap 7 = 212 + leap /\
  daysBeforeMonth leap 8 = 243 + leap /\ daysBeforeMonth leap 9 = 273 + leap /\
  daysBeforeMonth leap 10 = 304 + leap /\ daysBeforeMonth leap 11 = 334 + leap /\
  daysBeforeMonth leap 12 = 365 + leap.
Proof. repeat split; reflexivity. Qed.

(** Closes a goal about [daysBeforeMonth leap k] at literal months [k]. *)
Ltac by_month_table leap :=
  pose proof (daysBeforeMonth_table leap);
  change (0 + 1) with 1 in *; change (1 + 1) with 2 in *;
  change (2 + 1) with 3 in *; change (3 + 1) with 4 in *;
  change (4 + 1) with 5 in *; change (5 + 1) with 6 in *;
  change (6 + 1) with 7 in *; change (7 + 1) with 8 in *;
  change (8 + 1) with 9 in *; change (9 + 1) with 10 in *;
  change (10 + 1) with 11 in *; change (11 + 1) with 12 in *;
  lia.

Ltac month_cases m :=
  let C := fresh "C" in
  assert (C : m = 0 \/ m = 1 \/ m = 2 \/ m = 3 \/ m = 4 \/ m = 5 \/ m = 6 \/
              m = 7 \/ m = 8 \/ m = 9 \/ m = 10 \/ m = 11) by lia;
  repeat destruct C as [-> | C]; try subst m.

Lemma MonthOfYearDay_spec leap dwy :
  0 <= leap <= 1 -> 0 <= dwy < 365 + leap ->
  let m := MonthOfYearDay leap dwy in
  0 <= m <= 11 /\
  daysBeforeMonth leap m <= dwy < daysBeforeMonth leap (m + 1).
Proof.
  intros Hl Hd. unfold MonthOfYearDay.
  repeat match goal with
    | |- context [Z.ltb ?a ?b] => destruct (Z.ltb_spec a b)
    end; cbn zeta; by_month_table leap.
Qed.

Lemma MonthFromTime_range t : 0 <= MonthFromTime t <= 11.
Proof.
  pose proof (DayWithinYear_range t).
  apply MonthOfYearDay_spec; [ | assumption].
  destruct (InLeapYear_cases t) as [[_ ->] | [_ ->]]; lia.
Qed.

Lemma DateFromTime_range t :
  1 <= DateFromTime t <= daysInMonth (InLeapYear t) (MonthFromTime t).
Proof.
  pose proof (DayWithinYear_range t) as R.
  assert (L : 0 <= InLeapYear t <= 1)
    by (destruct (InLeapYear_cases t) as [[_ ->] | [_ ->]]; lia).
  pose proof (MonthOfYearDay_spec _ _ L R) as [_ M].
  unfold DateFromTime, daysInMonth, MonthFromTime. lia.
Qed.

Lemma MakeDay_in_year y m dt :
  0 <= m <= 11 ->
  MakeDay y m dt =
    DayFromYear y + daysBeforeMonth (if isLeapYear y then 1 else 0) m + dt - 1.
Proof.
  intros H. unfold MakeDay.
  rewrite Z.div_small, Z.mod_small by lia.
  rewrite Z.add_0_r. reflexivity.
Qed.

(** The fields of a time value give back its day number. *)
Lemma MakeDay_fields t :
  MakeDay (YearFromTime t) (MonthFromTime t) (DateFromTime t) = Day t.
Proof.
  rewrite MakeDay_in_year by apply MonthFromTime_range.
  unfold DateFromTime, DayWithinYear, InLeapYear. lia.
Qed.

Lemma daysBeforeMonth_mono leap m :
  0 <= leap <= 1 -> 0 <= m <= 11 ->
  0 <= daysBeforeMonth leap m /\
  daysBeforeMonth leap m + 28 <= daysBeforeMonth leap (m + 1) <= 365 + leap.
Proof.
  intros Hl Hm. month_cases m; by_month_table leap.
Qed.

Lemma daysBeforeMonth_lt leap m m' :
  0 <= leap <= 1 -> 0 <= m <= 11 -> 0 <= m' <= 11 -> m' < m ->
  daysBeforeMonth leap (m' + 1) <= daysBeforeMonth leap m.
Proof.
  intros Hl Hm Hm' L. month_cases m; month_cases m'; by_month_table leap.
Qed.

(** A day number built from a valid date has that date's fields. *)
Lemma fields_of_MakeDay t y m dt :
  0 <= m <= 11 ->
  1 <= dt <= daysInMonth (if isLeapYear y then 1 else 0) m ->
  Day t = MakeDay y m dt ->
  YearFromTime t = y /\ MonthFromTime t = m /\ DateFromTime t = dt.
Proof.
  intros Hm Hd E. rewrite MakeDay_in_year in E by exact Hm.
  set (leap := if isLeapYear y then 1 else 0) in *.
  assert (Hl : 0 <= leap <= 1) by (subst leap; destruct (isLeapYear y); lia).
  pose proof (daysBeforeMonth_mono leap m Hl Hm) as B.
  unfold daysInMonth in Hd.
  assert (Y : YearFromTime t = y).
  { apply YearFromDay_unique. rewrite DayFromYear_succ, E.
    unfold DaysInYear. subst leap. destruct (isLeapYear y); lia. }
  assert (IL : InLeapYear t = leap) by (unfold InLeapYear; rewrite Y; reflexivity).
  assert (W : DayWithinYear t = daysBeforeMonth leap m + dt - 1)
    by (unfold DayWithinYear; rewrite Y; lia).
  assert (M : MonthFromTime t = m).
  { unfold MonthFromTime. rewrite IL, W.
    assert (R : 0 <= daysBeforeMonth leap m + dt - 1 < 365 + leap) by lia.
    pose proof (MonthOfYearDay_spec _ _ Hl R) as [R1 R2].
    set (m' := MonthOfYearDay leap (daysBeforeMonth leap m + dt - 1)) in *.
    destruct (Z.lt_trichotomy m' m) as [L | [E' | G]]; [ | exact E' | ].
    - pose proof (daysBeforeMonth_lt leap m m' Hl Hm R1 L). lia.
    - pose proof (daysBeforeMonth_lt leap m' m Hl R1 Hm G). lia. }
  repeat split; [exact Y | exact M | ].
  unfold DateFromTime. rewrite IL, W, M. lia.
Qed.

Lemma MakeDay_succ y m dt : MakeDay y m (dt + 1) = MakeDay y m dt + 1.
Proof. unfold MakeDay. lia. Qed.

Lemma leapDays_range y : 0 <= leapDays y <= 1.
Proof. unfold leapDays. destruct (isLeapYear y); lia. Qed.

Lemma daysInMonth_ge_28 leap m :
  0 <= leap <= 1 -> 0 <= m <= 11 -> 28 <= daysInMonth leap m.
Proof.
  intros Hl Hm. pose proof (daysBeforeMonth_mono leap m Hl Hm).
  unfold daysInMonth. lia.
Qed.

Lemma DayFromYear_pred y :
  DayFromYear y = DayFromYear (y - 1) + DaysInYear (y - 1).
Proof. rewrite <- DayFromYear_succ. f_equal. lia. Qed.

(** [setMonth(month - 11, 0)]: the last day of the same month one year
    earlier. *)
Lemma MakeDay_end_of_month_last_year y m :
  0 <= m <= 11 ->
  MakeDay y (m + -12 + 1) 0 = MakeDay (y - 1) m (daysInMonth (leapDays (y - 1)) m).
Proof.
  intros Hm. rewrite (MakeDay_in_year (y - 1)) by exact Hm.
  fold (leapDays (y - 1)). unfold MakeDay, daysInMonth.
  destruct (Z.eq_dec m 11) as [-> | Hne].
  - change ((11 + -12 + 1) / 12) with 0. change ((11 + -12 + 1) mod 12) with 0.
    rewrite !Z.add_0_r, (DayFromYear_pred y).
    unfold DaysInYear, leapDays. pose proof (daysBeforeMonth_table 0).
    destruct (isLeapYear y), (isLeapYear (y - 1)); by_month_table 1.
  - assert (E1 : (m + -12 + 1) / 12 = -1) by (Z.div_mod_to_equations; lia).
    assert (E2 : (m + -12 + 1) mod 12 = m + 1) by (Z.div_mod_to_equations; lia).
    rewrite E1, E2. replace (y + -1) with (y - 1) by lia.
    fold (leapDays (y - 1)). lia.
Qed.

(** From a date to the same date one year earlier, the day of the month
    cut to the length of the month, there are 365 or 366 days. *)
Lemma MakeDay_year_distance y m dt :
  0 <= m <= 11 -> 1 <= dt <= daysInMonth (leapDays y) m ->
  let back := MakeDay (y - 1) m (Z.min dt (daysInMonth (leapDays (y - 1)) m)) in
  MakeDay y m dt - back = 365 \/ MakeDay y m dt - back = 366.
Proof.
  intros Hm Hd back. subst back. rewrite !MakeDay_in_year by exact Hm.
  fold (leapDays y) (leapDays (y - 1)).
  rewrite (DayFromYear_pred y).
  assert (N : isLeapYear (y - 1) = true -> isLeapYear y = false).
  { unfold isLeapYear. intros H.
    destruct (Z.eqb_spec (y mod 4) 0); [ | 
      destruct (Z.eqb_spec (y mod 400) 0); [ | reflexivity]].
    - exfalso. apply orb_prop in H. 
      destruct H as [H | H]; [apply andb_prop in H; destruct H as [H _] | ];
        apply Z.eqb_eq in H; revert H e; clear;
        intros; Z.div_mod_to_equations; lia.
    - exfalso. revert n e. clear. intros; Z.div_mod_to_equations; lia. }
  revert Hd. unfold daysInMonth, DaysInYear, leapDays in *.
  destruct (isLeapYear (y - 1)), (isLeapYear y);
    try (specialize (N eq_refl); discriminate N); clear N;
    intros Hd; month_cases m;
    pose proof (daysBeforeMonth_table 0); by_month_table 1.
Qed.

(** ** Properties of the week grid *)

Lemma realDays_app a b : realDays (a ++ b) = realDays a ++ realDays b.
Proof.
  induction a as [ | [day | ] a IH]; cbn; [reflexivity | f_equal; exact IH | exact IH].
Qed.

Lemma realDays_replicate n : realDays (replicate n None) = [].
Proof. induction n as [ | n IH]; [reflexivity | exact IH]. Qed.

Lemma realDays_map_Some l : realDays (map Some l) = l.
Proof. induction l as [ | x l IH]; cbn; [reflexivity | f_equal; exact IH]. Qed.

Lemma leadingEmpty_replicate n day rest :
  leadingEmpty (replicate n None ++ Some day :: rest) = n.
Proof. induction n as [ | n IH]; cbn; [reflexivity | f_equal; exact IH]. Qed.

Lemma pushDay_spec weeks currentWeek day :
  Forall fullWeek weeks -> (length currentWeek <= 7)%nat ->
  let st := pushDay (weeks, currentWeek) day in
  Forall fullWeek st.1 /\ (1 <= length st.2 <= 7)%nat /\
  concat st.1 ++ st.2 = concat weeks ++ currentWeek ++ [Some day].
Proof.
  intros Hw Hc. unfold pushDay. cbn [fst snd].
  destruct (Nat.eqb_spec (length currentWeek) 7) as [E | N]; cbn [fst snd].
  - split; [ | split].
    + apply Forall_app. split; [exact Hw | ]. constructor; [exact E | constructor].
    + cbn. lia.
    + rewrite concat_app. cbn. rewrite app_nil_r, <- app_assoc. reflexivity.
  - split; [exact Hw | split].
    + rewrite length_app. cbn. lia.
    + reflexivity.
Qed.

Lemma fold_pushDay_spec days : forall weeks currentWeek,
  Forall fullWeek weeks -> (length currentWeek <= 7)%nat ->
  let st := fold_left pushDay days (weeks, currentWeek) in
  Forall fullWeek st.1 /\ (length st.2 <= 7)%nat /\
  (days <> [] -> (1 <= length st.2)%nat) /\
  concat st.1 ++ st.2 = concat weeks ++ currentWeek ++ map Some days.
Proof.
  induction days as [ | day days IH]; intros weeks currentWeek Hw Hc.
  - cbn. rewrite app_nil_r. repeat split; auto. intros N. contradiction.
  - cbn [fold_left map].
    destruct (pushDay_spec weeks currentWeek day Hw Hc) as (P1 & P2 & P3).
    destruct (pushDay (weeks, currentWeek) day) as [weeks1 week1].
    cbn [fst snd] in *.
    destruct (IH weeks1 week1 P1 ltac:(lia)) as (Q1 & Q2 & Q3 & Q4).
    cbv zeta. split; [exact Q1 | split; [exact Q2 | split]].
    + intros _. destruct days as [ | d days]; [cbn; lia | ].
      apply Q3. discriminate.
    + rewrite Q4, app_assoc, P3, <- !app_assoc. reflexivity.
Qed.

Lemma padWeek_spec fuel : forall week,
  (7 - length week <= fuel)%nat ->
  padWeek fuel week = week ++ replicate (7 - length week) None.
Proof.
  induction fuel as [ | fuel IH]; intros week H; cbn [padWeek].
  - replace (7 - length week)%nat with 0%nat by lia.
    cbn. rewrite app_nil_r. reflexivity.
  - destruct (Nat.ltb_spec (length week) 7) as [L | G].
    + rewrite IH by (rewrite length_app; cbn; lia).
      rewrite length_app, <- app_assoc. cbn [length app].
      replace (7 - length week)%nat with (S (7 - (length week + 1)))%nat by lia.
      reflexivity.
    + replace (7 - length week)%nat with 0%nat by lia.
      cbn. rewrite app_nil_r. reflexivity.
Qed.

(** The weeks are the slices of length 7 of: the leading padding, the days,
    and a trailing padding of fewer than 7 slots. *)
Lemma buildWeeks_spec firstDayOfWeek days :
  0 <= firstDayOfWeek <= 6 ->
  Forall fullWeek (buildWeeks firstDayOfWeek days) /\
  exists trailing : nat, (trailing < 7)%nat /\
    concat (buildWeeks firstDayOfWeek days)
    = replicate (Z.to_nat firstDayOfWeek) None ++ map Some days
      ++ replicate trailing None.
Proof.
  intros Hf. unfold buildWeeks.
  pose proof (fold_pushDay_spec days []
                (replicate (Z.to_nat firstDayOfWeek) None)) as S.
  destruct (fold_left pushDay days
              ([], replicate (Z.to_nat firstDayOfWeek) None))
    as [weeks currentWeek].
  cbn [fst snd concat app] in S.
  destruct S as (S1 & S2 & _ & S4);
    [constructor | rewrite length_replicate; lia | ].
  destruct (Nat.ltb_spec 0 (length currentWeek)) as [L | G].
  - rewrite padWeek_spec by lia. split.
    + apply Forall_app. split; [exact S1 | ].
      constructor; [ | constructor]. unfold fullWeek.
      rewrite length_app, length_replicate. lia.
    + exists (7 - length currentWeek)%nat. split; [lia | ].
      rewrite concat_app. cbn [concat]. rewrite app_nil_r, app_assoc, S4.
      rewrite <- app_assoc. reflexivity.
  - split; [exact S1 | ]. exists 0%nat. split; [lia | ].
    destruct currentWeek; [ | cbn in G; lia].
    rewrite app_nil_r in S4. cbn. rewrite app_nil_r. exact S4.
Qed.

Lemma concat_fullWeek_length weeks :
  Forall fullWeek weeks -> length (concat weeks) = (7 * length weeks)%nat.
Proof.
  induction 1 as [ | week weeks Hw _ IH]; [reflexivity | ].
  cbn [concat length]. rewrite length_app, Hw, IH. lia.
Qed.

Lemma concat_map_Some_inv weeks : forall days,
  concat weeks = map Some days ->
  exists chunks : list (list string),
    weeks = map (map Some) chunks /\ concat chunks = days.
Proof.
  induction weeks as [ | week weeks IH]; intros days E.
  - exists []. split; [reflexivity | ].
    destruct days; [reflexivity | discriminate E].
  - cbn [concat] in E. symmetry in E.
    apply map_eq_app in E. destruct E as (d1 & d2 & -> & E1 & E2).
    destruct (IH d2 (eq_sym E2)) as (chunks & -> & C).
    exists (d1 :: chunks). cbn. rewrite E1, C. split; reflexivity.
Qed.

(** With two weeks or more, the padding sits at the start of the first week
    and at the end of the last one; all the other slots are days, in the
    order of [days]. *)
Lemma weeks_shape (weeks : list Week) (leading trailing : nat) days :
  Forall fullWeek weeks ->
  concat weeks
  = replicate leading None ++ map Some days ++ replicate trailing None ->
  (leading < 7)%nat -> (trailing < 7)%nat -> (14 <= length days)%nat ->
  exists (firstDays lastDays : list string) (chunks : list (list string)),
    weeks = (replicate leading None ++ map Some firstDays)
              :: map (map Some) chunks
              ++ [map Some lastDays ++ replicate trailing None] /\
    firstDays <> [] /\ lastDays <> [] /\
    days = firstDays ++ concat chunks ++ lastDays.
Proof.
  intros Hw E Hl Ht Hd.
  pose proof (concat_fullWeek_length weeks Hw) as Len.
  rewrite E, !length_app, !length_replicate, length_map in Len.
  destruct weeks as [ | first rest]; [cbn in Len; lia | ].
  induction rest as [ | last middle _] using rev_ind; [cbn in Len; lia | ].
  rewrite length_cons, length_app in Len. cbn [length] in Len.
  apply Forall_cons_1 in Hw. destruct Hw as [Hfirst Hw].
  apply Forall_app in Hw. destruct Hw as [Hmiddle Hlast].
  apply Forall_cons_1 in Hlast. destruct Hlast as [Hlast _].
  pose proof (concat_fullWeek_length middle Hmiddle) as LenM.
  unfold fullWeek in Hfirst, Hlast.
  cbn [concat] in E. rewrite concat_app in E. cbn [concat] in E.
  rewrite app_nil_r in E.
  (* the first week *)
  rewrite <- (take_drop (7 - leading) days) in E.
  rewrite map_app, <- app_assoc, (app_assoc (replicate leading None)) in E.
  apply app_inj_1 in E;
    [ | rewrite length_app, length_replicate, length_map, length_take; lia].
  destruct E as [-> E].
  (* the last week *)
  set (k := (length (drop (7 - leading) days) - (7 - trailing))%nat).
  rewrite <- (take_drop k (drop (7 - leading) days)) in E.
  rewrite map_app, <- app_assoc in E.
  assert (Hk : length (drop k (drop (7 - leading) days)) = (7 - trailing)%nat).
  { rewrite length_drop. subst k. rewrite length_drop. lia. }
  apply app_inj_2 in E;
    [ | rewrite length_app, length_replicate, length_map, Hk; lia].
  destruct E as [E ->].
  destruct (concat_map_Some_inv middle _ E) as (chunks & -> & C).
  exists (take (7 - leading) days), (drop k (drop (7 - leading) days)), chunks.
  split; [reflexivity | ]. split; [ | split].
  - intros N. apply (f_equal length) in N. rewrite length_take in N.
    cbn in N. lia.
  - intros N. rewrite N in Hk. cbn in Hk. lia.
  - rewrite C, take_drop, take_drop. reflexivity.
Qed.

(** ** Properties of [format] *)

Lemma string_app_nil (b : string) : (EmptyString ++ b)%string = b.
Proof. reflexivity. Qed.

Lemma string_app_cons c (a b : string) :
  (String c a ++ b)%string = String c (a ++ b).
Proof. reflexivity. Qed.

Lemma string_length_app (a b : string) :
  String.length (a ++ b) = (String.length a + String.length b)%nat.
Proof.
  induction a as [ | c a IH]; [reflexivity | ].
  rewrite string_app_cons. cbn [String.length]. rewrite IH. reflexivity.
Qed.

Lemma string_app_inj_2 (a1 a2 b1 b2 : string) :
  String.length b1 = String.length b2 ->
  (a1 ++ b1 = a2 ++ b2)%string -> a1 = a2 /\ b1 = b2.
Proof.
  intros Hl. revert a2.
  induction a1 as [ | c a1 IH]; intros [ | c2 a2] E;
    rewrite ?string_app_nil, ?string_app_cons in E.
  - split; [reflexivity | exact E].
  - apply (f_equal String.length) in E. cbn [String.length] in E.
    rewrite string_length_app in E. lia.
  - apply (f_equal String.length) in E. cbn [String.length] in E.
    rewrite string_length_app in E. lia.
  - injection E as -> E. destruct (IH a2 E) as [-> ->]. split; reflexivity.
Qed.

Lemma parseDigits_zeros n s : parseDigits (zeros n ++ s) = parseDigits s.
Proof.
  induction n as [ | n IH]; [reflexivity | ].
  rewrite <- IH. cbn [zeros]. rewrite string_app_cons.
  unfold parseDigits. cbn [NilEmpty.uint_of_string].
  destruct (NilEmpty.uint_of_string (zeros n ++ s)); reflexivity.
Qed.

Lemma parseDigits_toString n : parseDigits (toString n) = Some n.
Proof.
  unfold parseDigits, toString. rewrite NilEmpty.usu. cbn.
  rewrite DecimalN.Unsigned.of_to. reflexivity.
Qed.

Lemma addLeadingZeros_inj a b n :
  0 <= a -> 0 <= b -> addLeadingZeros a n = addLeadingZeros b n -> a = b.
Proof.
  intros Ha Hb E. unfold addLeadingZeros, padStart0 in E.
  destruct (Z.ltb_spec a 0); [lia | ]. destruct (Z.ltb_spec b 0); [lia | ].
  rewrite !string_app_nil in E. apply (f_equal parseDigits) in E.
  rewrite !parseDigits_zeros, !parseDigits_toString in E.
  injection E as E. lia.
Qed.

Lemma addLeadingZeros_2_length a :
  0 <= a <= 99 -> String.length (addLeadingZeros a 2) = 2%nat.
Proof.
  intros H. replace a with (Z.of_nat (Z.to_nat a)) by lia.
  assert (L : (Z.to_nat a < 100)%nat) by lia.
  revert L. generalize (Z.to_nat a). intros k L.
  do 100 (destruct k as [ | k]; [reflexivity | ]). lia.
Qed.

Lemma formatFields_inj y1 m1 d1 y2 m2 d2 :
  1 <= y1 -> 1 <= y2 -> 0 <= m1 <= 11 -> 0 <= m2 <= 11 ->
  1 <= d1 <= 31 -> 1 <= d2 <= 31 ->
  formatFields y1 m1 d1 = formatFields y2 m2 d2 ->
  y1 = y2 /\ m1 = m2 /\ d1 = d2.
Proof.
  intros Hy1 Hy2 Hm1 Hm2 Hd1 Hd2 E. unfold formatFields in E.
  destruct (Z.gtb_spec y1 0); [ | lia]. destruct (Z.gtb_spec y2 0); [ | lia].
  pose proof (addLeadingZeros_2_length (m1 + 1) ltac:(lia)) as Lm1.
  pose proof (addLeadingZeros_2_length (m2 + 1) ltac:(lia)) as Lm2.
  pose proof (addLeadingZeros_2_length d1 ltac:(lia)) as Ld1.
  pose proof (addLeadingZeros_2_length d2 ltac:(lia)) as Ld2.
  apply string_app_inj_2 in E;
    [ | rewrite !string_length_app, Lm1, Lm2, Ld1, Ld2; reflexivity].
  destruct E as [Ey E]. apply addLeadingZeros_inj in Ey; [ | lia | lia].
  change ("-" ++ ?x)%string with (String "-" x) in E.
  rewrite !string_app_cons, !string_app_nil in E. injection E as E.
  apply string_app_inj_2 in E;
    [ | cbn [String.length]; rewrite Ld1, Ld2; reflexivity].
  destruct E as [Em E]. apply addLeadingZeros_inj in Em; [ | lia | lia].
  injection E as E. apply addLeadingZeros_inj in E; [ | lia | lia].
  lia.
Qed.

Lemma daysInMonth_le_31 leap m :
  0 <= leap <= 1 -> 0 <= m <= 11 -> daysInMonth leap m <= 31.
Proof.
  intros Hl Hm. unfold daysInMonth. month_cases m; by_month_table leap.
Qed.

Lemma YearFromDay_mono d1 d2 : d1 <= d2 -> YearFromDay d1 <= YearFromDay d2.
Proof.
  intros H. pose proof (YearFromDay_spec d1) as S1.
  pose proof (YearFromDay_spec d2) as S2.
  destruct (Z_le_gt_dec (YearFromDay d1) (YearFromDay d2)) as [L | G];
    [exact L | exfalso].
  assert (DayFromYear (YearFromDay d2 + 1) <= DayFromYear (YearFromDay d1)).
  { destruct (Z.eq_dec (YearFromDay d2 + 1) (YearFromDay d1)) as [-> | N];
      [lia | ].
    apply Z.lt_le_incl, DayFromYear_lt. lia. }
  lia.
Qed.

(** The fields of a time value depend on its day number only. *)
Lemma fields_same_day t t' :
  Day t = Day t' ->
  YearFromTime t = YearFromTime t' /\ MonthFromTime t = MonthFromTime t' /\
  DateFromTime t = DateFromTime t'.
Proof.
  intros E.
  assert (Y : YearFromTime t = YearFromTime t')
    by (unfold YearFromTime; rewrite E; reflexivity).
  assert (W : DayWithinYear t = DayWithinYear t')
    by (unfold DayWithinYear; rewrite E, Y; reflexivity).
  assert (L : InLeapYear t = InLeapYear t')
    by (unfold InLeapYear; rewrite Y; reflexivity).
  assert (M : MonthFromTime t = MonthFromTime t')
    by (unfold MonthFromTime; rewrite W, L; reflexivity).
  repeat split; [exact Y | exact M | ].
  unfold DateFromTime. rewrite W, L, M. reflexivity.
Qed.

(** ** Properties of the [Date] methods and of date-fns *)

Section DateProperties.

Variable tz : Z.

Lemma LocalTime_UTC x : LocalTime tz (UTC tz x) = x.
Proof. unfold LocalTime, UTC. lia. Qed.

Lemma UTC_LocalTime x : UTC tz (LocalTime tz x) = x.
Proof. unfold LocalTime, UTC. lia. Qed.

Lemma getFullYear_eq date : getFullYear tz date = YearFromTime (LocalTime tz date).
Proof. reflexivity. Qed.

Lemma getMonth_eq date : getMonth tz date = MonthFromTime (LocalTime tz date).
Proof. reflexivity. Qed.

Lemma getDate_eq date : getDate tz date = DateFromTime (LocalTime tz date).
Proof. reflexivity. Qed.

Lemma getDay_eq date : getDay tz date = (Day (LocalTime tz date) + 4) mod 7.
Proof. reflexivity. Qed.

Lemma LocalTime_setHours0 date :
  LocalTime tz (setHours0 tz date) = Day (LocalTime tz date) * msPerDay.
Proof. unfold setHours0. rewrite LocalTime_UTC. unfold MakeDate. lia. Qed.

(** One round of the loop of [eachDayOfInterval] moves to local midnight tz of
    the following day. *)
Lemma LocalTime_next_day date :
  LocalTime tz (setHours0 tz (setDate tz date (getDate tz date + 1)))
  = (Day (LocalTime tz date) + 1) * msPerDay.
Proof.
  rewrite LocalTime_setHours0.
  unfold setDate, getDate. rewrite LocalTime_UTC.
  rewrite Day_MakeDate by apply TimeWithinDay_range.
  rewrite MakeDay_succ, MakeDay_fields. reflexivity.
Qed.

Lemma Day_midnight d : Day (LocalTime tz (midnight tz d)) = d.
Proof.
  unfold midnight. rewrite LocalTime_UTC. apply Day_MakeDate.
  pose proof msPerDay_pos. lia.
Qed.

Lemma midnight_le d t : midnight tz d <= t <-> d <= Day (LocalTime tz t).
Proof.
  rewrite Day_ge. unfold midnight, UTC, MakeDate, LocalTime. lia.
Qed.

Lemma next_midnight d :
  setHours0 tz (setDate tz (midnight tz d) (getDate tz (midnight tz d) + 1))
  = midnight tz (d + 1).
Proof.
  rewrite <- (UTC_LocalTime (setHours0 _ _)).
  rewrite LocalTime_next_day, Day_midnight.
  unfold midnight, MakeDate. f_equal. lia.
Qed.

Lemma eachDay_loop_spec n : forall fuel d endTime dates,
  (n < fuel)%nat ->
  Day (LocalTime tz endTime) = d + Z.of_nat n - 1 ->
  eachDay_loop tz fuel (midnight tz d) endTime dates
  = Some (dates ++ map (midnight tz) (seqZ d (Z.of_nat n))).
Proof.
  induction n as [ | n IH]; intros fuel d endTime dates Hf He.
  - destruct fuel as [ | fuel]; [lia | ]. cbn [eachDay_loop].
    pose proof (midnight_le d endTime) as L.
    destruct (Z.leb_spec (midnight tz d) endTime); [lia | ].
    cbn. rewrite app_nil_r. reflexivity.
  - destruct fuel as [ | fuel]; [lia | ]. cbn [eachDay_loop].
    pose proof (midnight_le d endTime) as L.
    destruct (Z.leb_spec (midnight tz d) endTime); [ | lia].
    rewrite next_midnight, (IH fuel (d + 1) endTime) by lia.
    rewrite <- app_assoc. cbn [app].
    replace (Z.of_nat (S n)) with (Z.succ (Z.of_nat n)) by lia.
    rewrite (seqZ_cons d) by lia. rewrite Z.pred_succ. reflexivity.
Qed.

(** [eachDayOfInterval] returns, and lists the local midnights of the days
    from that of [startDate] to that of [endDate]. *)
Lemma eachDayOfInterval_returns startDate endDate :
  startDate <= endDate ->
  let d0 := Day (LocalTime tz startDate) in
  let d1 := Day (LocalTime tz endDate) in
  eachDayOfInterval tz startDate endDate
  = Some (map (midnight tz) (seqZ d0 (d1 - d0 + 1))).
Proof.
  intros H d0 d1. unfold eachDayOfInterval.
  assert (Hd : d0 <= d1).
  { subst d0 d1. unfold Day. apply Z.div_le_mono; [reflexivity | ].
    unfold LocalTime. lia. }
  assert (S0 : setHours0 tz startDate = midnight tz d0) by reflexivity.
  rewrite S0.
  rewrite (eachDay_loop_spec (Z.to_nat (d1 - d0 + 1))).
  - rewrite Z2Nat.id by lia. reflexivity.
  - apply Z2Nat.inj_lt; [lia | | ].
    + apply Z.add_nonneg_nonneg; [ | lia].
      apply Z.div_pos; [lia | reflexivity].
    + subst d0 d1. clear - H. unfold Day, LocalTime, msPerDay.
      Z.div_mod_to_equations. lia.
  - rewrite Z2Nat.id by lia. lia.
Qed.

Lemma yearAgoDay_eq today :
  yearAgoDay tz today
  = MakeDay (YearFromTime (LocalTime tz today) - 1)
      (MonthFromTime (LocalTime tz today))
      (Z.min (DateFromTime (LocalTime tz today))
         (daysInMonth (leapDays (YearFromTime (LocalTime tz today) - 1))
            (MonthFromTime (LocalTime tz today)))).
Proof. reflexivity. Qed.

Lemma LocalTime_subYears today :
  LocalTime tz (subYears tz today 1)
  = MakeDate (yearAgoDay tz today) (TimeWithinDay (LocalTime tz today)).
Proof.
  unfold subYears, addYears, addMonths, yearAgoDay.
  change (- (1) * 12) with (-12). change (-12 =? 0) with false. cbv iota zeta.
  set (t := LocalTime tz today).
  pose proof (MonthFromTime_range t) as Hm.
  pose proof (TimeWithinDay_range t) as Ht.
  set (dim := daysInMonth (leapDays (YearFromTime t - 1)) (MonthFromTime t)).
  assert (Hdim : 28 <= dim)
    by (apply daysInMonth_ge_28; [apply leapDays_range | exact Hm]).
  set (e := setMonth2 tz today (getMonth tz today + -12 + 1) 0).
  assert (Le : LocalTime tz e
               = MakeDate (MakeDay (YearFromTime t - 1) (MonthFromTime t) dim)
                   (TimeWithinDay t)).
  { unfold e, setMonth2, getMonth. rewrite LocalTime_UTC. fold t.
    rewrite MakeDay_end_of_month_last_year by exact Hm. reflexivity. }
  destruct (fields_of_MakeDay (LocalTime tz e) (YearFromTime t - 1)
              (MonthFromTime t) dim Hm) as (Fy & Fm & Fd).
  { fold (leapDays (YearFromTime t - 1)). fold dim. lia. }
  { rewrite Le. apply Day_MakeDate, Ht. }
  unfold getDate, getFullYear, getMonth. fold t. rewrite Fy, Fm, Fd.
  destruct (Z.geb_spec (DateFromTime t) dim) as [G | G].
  - rewrite Z.min_r by lia. exact Le.
  - rewrite Z.min_l by lia. unfold setFullYear. rewrite LocalTime_UTC.
    reflexivity.
Qed.

Lemma Day_subYears today :
  Day (LocalTime tz (subYears tz today 1)) = yearAgoDay tz today.
Proof.
  rewrite LocalTime_subYears. apply Day_MakeDate, TimeWithinDay_range.
Qed.

(** The window reaches back 365 or 366 days. *)
Lemma yearAgoDay_distance today :
  let d1 := Day (LocalTime tz today) in
  d1 - yearAgoDay tz today = 365 \/ d1 - yearAgoDay tz today = 366.
Proof.
  cbv zeta. rewrite <- (MakeDay_fields (LocalTime tz today)).
  apply MakeDay_year_distance; [apply MonthFromTime_range | ].
  apply DateFromTime_range.
Qed.

Lemma subYears_le today : subYears tz today 1 <= today.
Proof.
  pose proof (LocalTime_subYears today) as E.
  pose proof (MakeDate_Day_TimeWithinDay (LocalTime tz today)) as T.
  pose proof (yearAgoDay_distance today) as D. cbv zeta in D.
  revert E T D. generalize (yearAgoDay tz today) (Day (LocalTime tz today))
    (TimeWithinDay (LocalTime tz today)).
  intros a b c E T D. unfold MakeDate, LocalTime in *.
  pose proof msPerDay_pos. nia.
Qed.

(** The fields of the window start. *)
Lemma subYears_fields today :
  getFullYear tz (subYears tz today 1) = getFullYear tz today - 1 /\
  getMonth tz (subYears tz today 1) = getMonth tz today /\
  getDate tz (subYears tz today 1)
  = Z.min (getDate tz today)
      (daysInMonth (leapDays (getFullYear tz today - 1)) (getMonth tz today)).
Proof.
  rewrite !getFullYear_eq, !getMonth_eq, !getDate_eq.
  pose proof (Day_subYears today) as E. rewrite yearAgoDay_eq in E.
  revert E.
  generalize (LocalTime tz (subYears tz today 1)).
  generalize (LocalTime tz today). intros t t' E.
  pose proof (MonthFromTime_range t) as Hm.
  pose proof (DateFromTime_range t) as Hd.
  assert (28 <= daysInMonth (leapDays (YearFromTime t - 1)) (MonthFromTime t))
    by (apply daysInMonth_ge_28; [apply leapDays_range | exact Hm]).
  apply (fields_of_MakeDay t' _ _ _ Hm); [ | exact E].
  fold (leapDays (YearFromTime t - 1)). lia.
Qed.

Lemma format_yyyy_MM_dd_eq date :
  format_yyyy_MM_dd tz date
  = formatFields (YearFromTime (LocalTime tz date))
      (MonthFromTime (LocalTime tz date)) (DateFromTime (LocalTime tz date)).
Proof. reflexivity. Qed.

(** Two time values on the same local day have the same key. *)
Lemma format_same_day a b :
  Day (LocalTime tz a) = Day (LocalTime tz b) ->
  format_yyyy_MM_dd tz a = format_yyyy_MM_dd tz b.
Proof.
  intros E. rewrite !format_yyyy_MM_dd_eq.
  destruct (fields_same_day _ _ E) as (-> & -> & ->). reflexivity.
Qed.

Lemma format_dayKey date :
  format_yyyy_MM_dd tz date = dayKey tz (Day (LocalTime tz date)).
Proof.
  unfold dayKey. apply format_same_day. rewrite Day_midnight. reflexivity.
Qed.

(** From year 1 on, distinct days have distinct keys. *)
Lemma dayKey_inj d1 d2 :
  1 <= YearFromDay d1 -> 1 <= YearFromDay d2 ->
  dayKey tz d1 = dayKey tz d2 -> d1 = d2.
Proof.
  intros Y1 Y2 E. unfold dayKey in E. rewrite !format_yyyy_MM_dd_eq in E.
  pose proof (Day_midnight d1) as E1. pose proof (Day_midnight d2) as E2.
  revert E E1 E2.
  generalize (LocalTime tz (midnight tz d1)) (LocalTime tz (midnight tz d2)).
  intros t1 t2 E E1 E2. subst d1 d2.
  fold (YearFromTime t1) in Y1. fold (YearFromTime t2) in Y2.
  pose proof (MonthFromTime_range t1) as M1.
  pose proof (MonthFromTime_range t2) as M2.
  pose proof (DateFromTime_range t1) as D1.
  pose proof (DateFromTime_range t2) as D2.
  assert (L1 : 0 <= InLeapYear t1 <= 1)
    by (destruct (InLeapYear_cases t1) as [[_ ->] | [_ ->]]; lia).
  assert (L2 : 0 <= InLeapYear t2 <= 1)
    by (destruct (InLeapYear_cases t2) as [[_ ->] | [_ ->]]; lia).
  pose proof (daysInMonth_le_31 _ _ L1 M1).
  pose proof (daysInMonth_le_31 _ _ L2 M2).
  apply formatFields_inj in E; try lia.
  destruct E as (Ey & Em & Ed).
  rewrite <- (MakeDay_fields t1), <- (MakeDay_fields t2), Ey, Em, Ed.
  reflexivity.
Qed.

Lemma dayKeys_NoDup d0 n :
  1 <= YearFromDay d0 -> NoDup (map (dayKey tz) (seqZ d0 n)).
Proof.
  intros Y. apply NoDup_fmap_2_strong; [ | apply NoDup_seqZ].
  intros a b Ha Hb E. apply elem_of_seqZ in Ha, Hb.
  apply dayKey_inj; [ | | exact E].
  - pose proof (YearFromDay_mono d0 a ltac:(lia)). lia.
  - pose proof (YearFromDay_mono d0 b ltac:(lia)). lia.
Qed.

(** What the first [useMemo] computes: the grid over the day keys of the
    window and the month labels. *)
Lemma calendarSkeleton_returns today :
  let yearAgo := subYears tz today 1 in
  let d0 := yearAgoDay tz today in
  let d1 := Day (LocalTime tz today) in
  calendarSkeleton tz today
  = Some (buildWeeks (getDay tz yearAgo) (map (dayKey tz) (seqZ d0 (d1 - d0 + 1))),
          monthLabels tz yearAgo).
Proof.
  intros yearAgo d0 d1. unfold calendarSkeleton. fold yearAgo.
  rewrite (eachDayOfInterval_returns yearAgo today (subYears_le today)).
  cbn [mbind option_bind]. cbv zeta.
  replace (Day (LocalTime tz yearAgo)) with d0 by (symmetry; apply Day_subYears).
  fold d1. rewrite map_map. reflexivity.
Qed.

Lemma getDay_range date : 0 <= getDay tz date <= 6.
Proof.
  rewrite getDay_eq. pose proof (Z.mod_pos_bound (Day (LocalTime tz date) + 4) 7).
  lia.
Qed.

End DateProperties.

(** ** Properties of the completion counts *)

Lemma orZero_Some v : orZero (Some v) = v.
Proof. cbn. destruct (Z.eqb_spec v 0); congruence. Qed.

Lemma fold_left_sum l : forall a,
  fold_left (fun sum count => sum + count) l a = a + foldr Z.add 0 l.
Proof.
  induction l as [ | x l IH]; intros a; cbn; [lia | ].
  rewrite IH. lia.
Qed.

Lemma foldr_add_Permutation (l1 l2 : list Z) :
  l1 ≡ₚ l2 -> foldr Z.add 0 l1 = foldr Z.add 0 l2.
Proof. induction 1; cbn; lia. Qed.

Lemma totalCompletions_sum counts :
  totalCompletions counts = foldr Z.add 0 (map_to_list counts).*2.
Proof. unfold totalCompletions, Object_values. rewrite fold_left_sum. lia. Qed.

Lemma totalCompletions_empty : totalCompletions ∅ = 0.
Proof. rewrite totalCompletions_sum, map_to_list_empty. reflexivity. Qed.

(** Storing [old + 1] under a key adds one to the sum of the values. *)
Lemma totalCompletions_insert (counts : gmap string Z) k :
  totalCompletions (<[k := orZero (counts !! k) + 1]> counts)
  = totalCompletions counts + 1.
Proof.
  rewrite !totalCompletions_sum.
  destruct (counts !! k) as [v | ] eqn:E.
  - rewrite orZero_Some, <- insert_delete_eq.
    rewrite (foldr_add_Permutation _ _
               (fmap_Permutation snd _ _
                  (map_to_list_insert (delete k counts) k (v + 1)
                     (lookup_delete_eq counts k)))).
    rewrite <- (foldr_add_Permutation _ _
                  (fmap_Permutation snd _ _ (map_to_list_delete counts k v E))).
    cbn. lia.
  - rewrite (foldr_add_Permutation _ _
               (fmap_Permutation snd _ _
                  (map_to_list_insert counts k (orZero None + 1) E))).
    cbn. lia.
Qed.

Section CountProperties.

Variable tz : Z.

Lemma occurrences_nonneg k l : 0 <= occurrences tz k l.
Proof. induction l as [ | c l IH]; cbn; [lia | ]. case_decide; lia. Qed.

Lemma countCompletion_eq counts c :
  countCompletion tz counts c
  = <[dateKeyOf tz c := orZero (counts !! dateKeyOf tz c) + 1]> counts.
Proof. reflexivity. Qed.

Lemma positiveCounts_orZero counts k :
  positiveCounts counts -> 0 <= orZero (counts !! k).
Proof.
  intros P. destruct (counts !! k) as [v | ] eqn:E; [ | cbn; lia].
  rewrite orZero_Some. specialize (P k v E). lia.
Qed.

Lemma countCompletion_positive counts c :
  positiveCounts counts -> positiveCounts (countCompletion tz counts c).
Proof.
  intros P k v. rewrite countCompletion_eq, lookup_insert.
  case_decide as D.
  - intros [= <-]. pose proof (positiveCounts_orZero counts (dateKeyOf tz c) P). lia.
  - apply P.
Qed.

Lemma fold_countCompletion_positive l : forall counts,
  positiveCounts counts ->
  positiveCounts (fold_left (countCompletion tz) l counts).
Proof.
  induction l as [ | c l IH]; intros counts P; cbn; [exact P | ].
  apply IH, countCompletion_positive, P.
Qed.

Lemma fold_countCompletion_lookup k l : forall counts,
  positiveCounts counts ->
  fold_left (countCompletion tz) l counts !! k
  = if orZero (counts !! k) + occurrences tz k l =? 0 then None
    else Some (orZero (counts !! k) + occurrences tz k l).
Proof.
  induction l as [ | c l IH]; intros counts P; cbn [fold_left occurrences].
  - rewrite Z.add_0_r. destruct (counts !! k) as [v | ] eqn:E; [ | reflexivity].
    rewrite orZero_Some. specialize (P k v E).
    destruct (Z.eqb_spec v 0); [lia | reflexivity].
  - rewrite IH by (apply countCompletion_positive, P).
    rewrite countCompletion_eq, lookup_insert.
    case_decide as D.
    + subst k. rewrite orZero_Some, <- !Z.add_assoc. reflexivity.
    + reflexivity.
Qed.

Lemma positiveCounts_empty : positiveCounts ∅.
Proof. intros k v. rewrite lookup_empty. discriminate. Qed.

(** The mapping holds, for each key, the number of its events, and no
    entry for a key without events. *)
Lemma completionCounts_lookup completions k :
  completionCounts tz completions !! k
  = if occurrences tz k completions =? 0 then None
    else Some (occurrences tz k completions).
Proof.
  unfold completionCounts.
  rewrite fold_countCompletion_lookup by apply positiveCounts_empty.
  rewrite lookup_empty. reflexivity.
Qed.

Lemma occurrences_Permutation k l1 l2 :
  l1 ≡ₚ l2 -> occurrences tz k l1 = occurrences tz k l2.
Proof. induction 1; cbn; lia. Qed.

Lemma occurrences_all k l :
  Forall (fun c => dateKeyOf tz c = k) l -> occurrences tz k l = Z.of_nat (length l).
Proof.
  induction 1 as [ | c l Hc _ IH]; [reflexivity | ].
  cbn [occurrences length]. rewrite decide_True by exact Hc. lia.
Qed.

Lemma occurrences_other k k' l :
  Forall (fun c => dateKeyOf tz c = k) l -> k' <> k -> occurrences tz k' l = 0.
Proof.
  intros H N. induction H as [ | c l Hc _ IH]; [reflexivity | ].
  cbn [occurrences]. rewrite decide_False by congruence. lia.
Qed.

Lemma fold_countCompletion_total l : forall counts,
  totalCompletions (fold_left (countCompletion tz) l counts)
  = totalCompletions counts + Z.of_nat (length l).
Proof.
  induction l as [ | c l IH]; intros counts; cbn [fold_left length]; [lia | ].
  rewrite IH, countCompletion_eq, totalCompletions_insert. lia.
Qed.

End CountProperties.

(** ** Colour buckets *)

Lemma bucketClass_inj b1 b2 : bucketClass b1 = bucketClass b2 -> b1 = b2.
Proof. destruct b1, b2; cbn; intros E; try reflexivity; discriminate E. Qed.

Lemma getColorClass_spec count :
  0 <= count ->
  exists b, spec_colorBucketFor count = Some b /\
            getColorClass count = bucketClass b.
Proof.
  intros H. unfold spec_colorBucketFor, getColorClass.
  destruct (Z.eqb_spec count 0); [exists BucketEmpty; split; reflexivity | ].
  destruct (Z.leb_spec count 2).
  { exists BucketLow. destruct (Z.leb_spec 1 count); [ | lia].
    split; reflexivity. }
  destruct (Z.leb_spec 1 count); [ | lia]. cbn [andb].
  destruct (Z.leb_spec count 5).
  { exists BucketMedium. destruct (Z.leb_spec 3 count); [ | lia].
    split; reflexivity. }
  destruct (Z.leb_spec 3 count); [ | lia]. cbn [andb].
  destruct (Z.leb_spec count 10).
  { exists BucketHigh. destruct (Z.leb_spec 6 count); [ | lia].
    split; reflexivity. }
  destruct (Z.leb_spec 6 count); [ | lia]. cbn [andb].
  destruct (Z.leb_spec 11 count); [ | lia].
  exists BucketMax. split; reflexivity.
Qed.

Lemma spec_colorBucketFor_range count b :
  spec_colorBucketFor count = Some b ->
  (bucketRank b = 0 /\ count = 0) \/ (bucketRank b = 1 /\ 1 <= count <= 2) \/
  (bucketRank b = 2 /\ 3 <= count <= 5) \/
  (bucketRank b = 3 /\ 6 <= count <= 10) \/ (bucketRank b = 4 /\ 11 <= count).
Proof.
  unfold spec_colorBucketFor.
  repeat match goal with
    | |- context [Z.eqb ?a ?b] => destruct (Z.eqb_spec a b)
    | |- context [Z.leb ?a ?b] => destruct (Z.leb_spec a b)
    end; cbn [andb]; intros E; try discriminate E;
    injection E as <-; cbn; lia.
Qed.

Lemma spec_colorBucketFor_mono c1 c2 b1 b2 :
  0 <= c1 <= c2 ->
  spec_colorBucketFor c1 = Some b1 -> spec_colorBucketFor c2 = Some b2 ->
  bucketRank b1 <= bucketRank b2.
Proof.
  intros H E1 E2.
  apply spec_colorBucketFor_range in E1, E2. lia.
Qed.

(** ** The grid of one year *)

Lemma windowDays_length tz today :
  length (windowDays tz today) = 366%nat \/
  length (windowDays tz today) = 367%nat.
Proof.
  unfold windowDays. cbv zeta. rewrite length_map, length_seqZ, Day_subYears.
  destruct (yearAgoDay_distance tz today) as [E | E]; cbv zeta in E; lia.
Qed.

Lemma calendarSkeleton_shape tz today :
  exists (weeks : list Week) (leading trailing : nat)
         (firstDays lastDays : list string) (chunks : list (list string)),
    calendarSkeleton tz today
    = Some (weeks, monthLabels tz (subYears tz today 1)) /\
    Forall fullWeek weeks /\
    Z.of_nat leading = getDay tz (subYears tz today 1) /\
    (trailing < 7)%nat /\
    concat weeks
    = replicate leading None ++ map Some (windowDays tz today)
      ++ replicate trailing None /\
    weeks = (replicate leading None ++ map Some firstDays)
              :: map (map Some) chunks
              ++ [map Some lastDays ++ replicate trailing None] /\
    firstDays <> [] /\ lastDays <> [] /\
    windowDays tz today = firstDays ++ concat chunks ++ lastDays.
Proof.
  pose proof (getDay_range tz (subYears tz today 1)) as R.
  pose proof (calendarSkeleton_returns tz today) as S. cbv zeta in S.
  rewrite <- (Day_subYears tz today) in S. fold (windowDays tz today) in S.
  destruct (buildWeeks_spec (getDay tz (subYears tz today 1))
              (windowDays tz today) R) as (F & trailing & T & C).
  revert S F C.
  generalize (buildWeeks (getDay tz (subYears tz today 1)) (windowDays tz today)).
  intros weeks S F C.
  destruct (weeks_shape weeks _ trailing _ F C) as (fd & ld & ch & W & N1 & N2 & D);
    [lia | exact T | destruct (windowDays_length tz today); lia | ].
  exists weeks, (Z.to_nat (getDay tz (subYears tz today 1))), trailing, fd, ld, ch.
  repeat split; try assumption. lia.
Qed.

(** ** The month labels *)

Lemma string_app_inj_1 (a1 a2 b1 b2 : string) :
  String.length a1 = String.length a2 ->
  (a1 ++ b1 = a2 ++ b2)%string -> a1 = a2 /\ b1 = b2.
Proof.
  revert a2. induction a1 as [ | c a1 IH]; intros [ | c2 a2] Hl E;
    try discriminate Hl.
  - split; [reflexivity | exact E].
  - rewrite !string_app_cons in E. injection E as -> E.
    injection Hl as Hl. destruct (IH a2 Hl E) as [-> ->].
    split; reflexivity.
Qed.

Lemma monthAbbreviated_inj m1 m2 :
  0 <= m1 <= 11 -> 0 <= m2 <= 11 ->
  nth (Z.to_nat m1) monthAbbreviated EmptyString
  = nth (Z.to_nat m2) monthAbbreviated EmptyString ->
  m1 = m2.
Proof.
  intros H1 H2. month_cases m1; month_cases m2; cbn; intros E;
    try reflexivity; discriminate E.
Qed.

Lemma monthAbbreviated_length m :
  0 <= m <= 11 ->
  String.length (nth (Z.to_nat m) monthAbbreviated EmptyString) = 3%nat.
Proof. intros H. month_cases m; reflexivity. Qed.

Lemma MakeDay_carry y m dt :
  MakeDay y m dt = MakeDay (y + m / 12) (m mod 12) dt.
Proof.
  rewrite (MakeDay_in_year (y + m / 12))
    by (pose proof (Z.mod_pos_bound m 12); lia).
  reflexivity.
Qed.

Section MonthLabelProperties.

Variable tz : Z.

Lemma format_MMM_yyyy_eq date :
  format_MMM_yyyy tz date
  = (nth (Z.to_nat (MonthFromTime (LocalTime tz date))) monthAbbreviated
       EmptyString
     ++ " "
     ++ addLeadingZeros
          (if YearFromTime (LocalTime tz date) >? 0
           then YearFromTime (LocalTime tz date)
           else 1 - YearFromTime (LocalTime tz date)) 4)%string.
Proof. reflexivity. Qed.

(** Up to the 28th, [setMonth] lands in the month asked for. *)
Lemma setMonth_fields date month :
  getDate tz date <= 28 ->
  let t := LocalTime tz (setMonth tz date month) in
  YearFromTime t = getFullYear tz date + month / 12 /\
  MonthFromTime t = month mod 12.
Proof.
  intros H. cbv zeta.
  pose proof (DateFromTime_range (LocalTime tz date)) as D.
  rewrite getDate_eq in H. rewrite getFullYear_eq.
  assert (E : Day (LocalTime tz (setMonth tz date month))
              = MakeDay (YearFromTime (LocalTime tz date) + month / 12)
                  (month mod 12) (DateFromTime (LocalTime tz date))).
  { unfold setMonth, setMonth2. rewrite LocalTime_UTC, getDate_eq.
    rewrite Day_MakeDate by apply TimeWithinDay_range.
    apply MakeDay_carry. }
  revert H D E. generalize (LocalTime tz (setMonth tz date month)).
  generalize (LocalTime tz date). intros t t' H D E.
  pose proof (Z.mod_pos_bound month 12 ltac:(lia)) as M.
  assert (M' : 0 <= month mod 12 <= 11) by lia.
  pose proof (daysInMonth_ge_28 (leapDays (YearFromTime t + month / 12))
                (month mod 12) (leapDays_range _) M') as G.
  unfold leapDays in G.
  assert (D' : 1 <= DateFromTime t
               <= daysInMonth
                    (if isLeapYear (YearFromTime t + month / 12) then 1 else 0)
                    (month mod 12)) by lia.
  destruct (fields_of_MakeDay t' (YearFromTime t + month / 12) (month mod 12)
              (DateFromTime t) M' D' E) as (Y & Mo & _).
  split; assumption.
Qed.

Lemma monthLabel_eq yearAgo i :
  monthLabel tz yearAgo i
  = {| key := format_MMM_yyyy tz
                (setMonth tz yearAgo (getMonth tz yearAgo + i));
       label := format_MMM tz
                  (setMonth tz yearAgo (getMonth tz yearAgo + i)) |}.
Proof. reflexivity. Qed.

Lemma key_monthLabel yearAgo i :
  key (monthLabel tz yearAgo i)
  = format_MMM_yyyy tz (setMonth tz yearAgo (getMonth tz yearAgo + i)).
Proof. rewrite monthLabel_eq. reflexivity. Qed.

(** When the window starts on the 28th of a month or earlier (and in year 1
    or later), the 13 keys are pairwise distinct. *)
Lemma monthLabels_keys_NoDup yearAgo :
  1 <= getFullYear tz yearAgo -> getDate tz yearAgo <= 28 ->
  NoDup (map key (monthLabels tz yearAgo)).
Proof.
  intros Hy Hd. unfold monthLabels. rewrite map_map.
  apply NoDup_fmap_2_strong; [ | apply NoDup_seqZ].
  intros i j Hi Hj E. apply elem_of_seqZ in Hi, Hj.
  rewrite !key_monthLabel, !format_MMM_yyyy_eq in E.
  pose proof (MonthFromTime_range (LocalTime tz yearAgo)) as M.
  rewrite <- getMonth_eq in M.
  destruct (setMonth_fields yearAgo (getMonth tz yearAgo + i) Hd) as (Yi & Mi).
  destruct (setMonth_fields yearAgo (getMonth tz yearAgo + j) Hd) as (Yj & Mj).
  rewrite Yi, Mi, Yj, Mj in E.
  revert Hy M E. generalize (getFullYear tz yearAgo) (getMonth tz yearAgo).
  clear - Hi Hj. intros y m Hy M E.
  pose proof (Z.mod_pos_bound (m + i) 12 ltac:(lia)) as Bi.
  pose proof (Z.mod_pos_bound (m + j) 12 ltac:(lia)) as Bj.
  assert (Qi : 0 <= (m + i) / 12) by (apply Z.div_pos; lia).
  assert (Qj : 0 <= (m + j) / 12) by (apply Z.div_pos; lia).
  apply string_app_inj_1 in E;
    [ | rewrite !monthAbbreviated_length by lia; reflexivity].
  destruct E as [Em Ey]. apply monthAbbreviated_inj in Em; [ | lia | lia].
  rewrite !string_app_cons, !string_app_nil in Ey. injection Ey as Ey.
  destruct (Z.gtb_spec (y + (m + i) / 12) 0); [ | lia].
  destruct (Z.gtb_spec (y + (m + j) / 12) 0); [ | lia].
  apply addLeadingZeros_inj in Ey; [ | lia | lia].
  pose proof (Z.div_mod (m + i) 12 ltac:(lia)).
  pose proof (Z.div_mod (m + j) 12 ltac:(lia)).
  lia.
Qed.

End MonthLabelProperties.

(** ** The model on concrete inputs *)

Example subYears_of_leap_day :
  format_yyyy_MM_dd 0 (subYears 0 (noonOf 0 2024 1 29) 1) = "2023-02-28".
Proof. vm_compute. reflexivity. Qed.

Example first_and_last_week_on_2024_03_15 :
  option_map (fun grid => (length grid.1, head grid.1, last grid.1))
    (calendarSkeleton 0 (noonOf 0 2024 2 15))
  = Some (53%nat,
          Some [None; None; None; Some "2023-03-15"; Some "2023-03-16";
                Some "2023-03-17"; Some "2023-03-18"],
          Some [Some "2024-03-10"; Some "2024-03-11"; Some "2024-03-12";
                Some "2024-03-13"; Some "2024-03-14"; Some "2024-03-15";
                None]).
Proof. vm_compute. reflexivity. Qed.

Example monthLabels_on_2024_03_15 :
  map (fun l => (key l, label l))
    (monthLabels 0 (subYears 0 (noonOf 0 2024 2 15) 1))
  = [("Mar 2023", "Mar"); ("Apr 2023", "Apr"); ("May 2023", "May");
     ("Jun 2023", "Jun"); ("Jul 2023", "Jul"); ("Aug 2023", "Aug");
     ("Sep 2023", "Sep"); ("Oct 2023", "Oct"); ("Nov 2023", "Nov");
     ("Dec 2023", "Dec"); ("Jan 2024", "Jan"); ("Feb 2024", "Feb");
     ("Mar 2024", "Mar")].
Proof. vm_compute. reflexivity. Qed.

(** One hour east of Greenwich, 23:30 UTC belongs to the next local day. *)
Example completionCounts_in_local_time :
  map_to_list
    (completionCounts 3600000
       [ {| habitId := "h1"; completedAt := 1000 |};
         {| habitId := "h1"; completedAt := 84600000 |};
         {| habitId := "h2"; completedAt := 86400000 |} ])
  = [("1970-01-01", 1); ("1970-01-02", 2)].
Proof. vm_compute. reflexivity. Qed.

(** [format] prints year 0, which is 1 BC, as year 1 of its era. *)
Example format_of_year_0 :
  format_yyyy_MM_dd 0 (noonOf 0 0 5 15) = "0001-06-15" /\
  format_yyyy_MM_dd 0 (noonOf 0 1 5 15) = "0001-06-15".
Proof. split; vm_compute; reflexivity. Qed.

(** * The claims *)

(** C1. Summing all values of the per-day count mapping gives the number of
    completion events: [totalCompletions (completionCounts events)] is
    [events.length], for every list of events. *)
Theorem totalCompletions_is_length (tz : Z) (completions : list Completion) :
  totalCompletions (completionCounts tz completions)
  = Z.of_nat (length completions).
Proof.
  unfold completionCounts.
  rewrite fold_countCompletion_total, totalCompletions_empty. lia.
Qed.

(** C2. On the non-negative counts [getColorClass] is total, picks exactly
    one of the five buckets, the one of the table (0 empty, 1-2 low, 3-5
    medium, 6-10 high, 11 and more max), and is monotonic in the order of the
    buckets. *)
Theorem getColorClass_buckets :
  (forall count, 0 <= count ->
     exists b, spec_colorBucketFor count = Some b /\
               getColorClass count = bucketClass b /\
               forall b', getColorClass count = bucketClass b' -> b' = b) /\
  (forall count1 count2 b1 b2, 0 <= count1 -> count1 <= count2 ->
     getColorClass count1 = bucketClass b1 ->
     getColorClass count2 = bucketClass b2 ->
     bucketRank b1 <= bucketRank b2) /\
  map getColorClass [0; 1; 2; 3; 5; 6; 10; 11; 1000]
  = map bucketClass
      [BucketEmpty; BucketLow; BucketLow; BucketMedium; BucketMedium;
       BucketHigh; BucketHigh; BucketMax; BucketMax].
Proof.
  split; [ | split; [ | reflexivity]].
  - intros count H. destruct (getColorClass_spec count H) as (b & S & C).
    exists b. split; [exact S | split; [exact C | ]].
    intros b' C'. apply bucketClass_inj. congruence.
  - intros c1 c2 b1 b2 H0 H C1 C2.
    destruct (getColorClass_spec c1 H0) as (b1' & S1 & C1').
    destruct (getColorClass_spec c2 ltac:(lia)) as (b2' & S2 & C2').
    assert (b1 = b1') by (apply bucketClass_inj; congruence).
    assert (b2 = b2') by (apply bucketClass_inj; congruence).
    subst b1' b2'. apply (spec_colorBucketFor_mono c1 c2); [lia | exact S1 | exact S2].
Qed.

(** C3. For every current date, every week of the grid has exactly 7 slots,
    so the number of slots of the grid is a multiple of 7. *)
Theorem weeks_have_seven_slots (tz now : Z) :
  exists weeks labels,
    calendarSkeleton tz now = Some (weeks, labels) /\
    Forall (fun week : Week => length week = 7%nat) weeks /\
    length (concat weeks) = (7 * length weeks)%nat /\
    (length (concat weeks) mod 7 = 0)%nat.
Proof.
  destruct (calendarSkeleton_shape tz now)
    as (weeks & leading & trailing & fd & ld & ch & S & F & _).
  exists weeks, (monthLabels tz (subYears tz now 1)).
  pose proof (concat_fullWeek_length weeks F) as L.
  split; [exact S | split; [exact F | split; [exact L | ]]].
  rewrite L, Nat.mul_comm. apply Nat.Div0.mod_mul.
Qed.

(** C4. For every current date, the first week starts with as many empty
    slots as the weekday index (0 = Sunday, ..., 6 = Saturday) of the window
    start; for a current date of 2024-03-15 the window starts on Wednesday
    2023-03-15 and the first week starts with 3 empty slots. *)
Theorem leading_padding_is_weekday (tz now : Z) :
  exists first rest labels,
    calendarSkeleton tz now = Some (first :: rest, labels) /\
    Z.of_nat (leadingEmpty first) = getDay tz (subYears tz now 1) /\
    0 <= getDay tz (subYears tz now 1) <= 6 /\
    (getFullYear tz now = 2024 -> getMonth tz now = 2 -> getDate tz now = 15 ->
     format_yyyy_MM_dd tz (subYears tz now 1) = "2023-03-15" /\
     getDay tz (subYears tz now 1) = 3 /\
     leadingEmpty first = 3%nat).
Proof.
  destruct (calendarSkeleton_shape tz now)
    as (weeks & leading & trailing & fd & ld & ch & S & _ & L & _ & _ & W & N & _).
  destruct fd as [ | day fd]; [contradiction | ]. clear N.
  subst weeks. cbn [map] in S.
  eexists _, _, _. split; [exact S | ].
  rewrite leadingEmpty_replicate.
  split; [exact L | split; [apply getDay_range | ]].
  intros Hy Hm Hd.
  assert (G : getDay tz (subYears tz now 1) = 3).
  { rewrite getDay_eq, Day_subYears, yearAgoDay_eq.
    rewrite <- getFullYear_eq, <- getMonth_eq, <- getDate_eq, Hy, Hm, Hd.
    vm_compute. reflexivity. }
  split; [ | split; [exact G | lia]].
  rewrite format_yyyy_MM_dd_eq, <- getFullYear_eq, <- getMonth_eq, <- getDate_eq.
  destruct (subYears_fields tz now) as (-> & -> & ->).
  rewrite Hy, Hm, Hd. vm_compute. reflexivity.
Qed.

(** C5. For every current date, the day slots of the grid are exactly the
    calendar days from [now - 1 year] to [now], both included, in order, and
    there are 366 or 367 of them.  The days are pairwise distinct, and so
    are their keys when the clock reads year 2 or later: [format] prints the
    year of the era, which makes the keys of year 0 (1 BC) those of year 1. *)
Theorem grid_days_are_the_window (tz now : Z) :
  exists weeks labels,
    calendarSkeleton tz now = Some (weeks, labels) /\
    let d0 := Day (LocalTime tz (subYears tz now 1)) in
    let d1 := Day (LocalTime tz now) in
    realDays (concat weeks) = map (dayKey tz) (seqZ d0 (d1 - d0 + 1)) /\
    dayKey tz d0 = format_yyyy_MM_dd tz (subYears tz now 1) /\
    dayKey tz d1 = format_yyyy_MM_dd tz now /\
    (length (realDays (concat weeks)) = 366%nat \/
     length (realDays (concat weeks)) = 367%nat) /\
    NoDup (seqZ d0 (d1 - d0 + 1)) /\
    (2 <= getFullYear tz now -> NoDup (realDays (concat weeks))).
Proof.
  destruct (calendarSkeleton_shape tz now)
    as (weeks & leading & trailing & fd & ld & ch & S & _ & _ & _ & C & _).
  exists weeks, (monthLabels tz (subYears tz now 1)).
  split; [exact S | ]. cbv zeta.
  assert (R : realDays (concat weeks) = windowDays tz now).
  { rewrite C, !realDays_app, !realDays_replicate, realDays_map_Some.
    rewrite app_nil_r. reflexivity. }
  split; [exact R | ].
  split; [symmetry; apply format_dayKey | ].
  split; [symmetry; apply format_dayKey | ].
  rewrite R. split; [apply windowDays_length | ].
  split; [apply NoDup_seqZ | ].
  intros Hy. apply dayKeys_NoDup.
  change (1 <= YearFromTime (LocalTime tz (subYears tz now 1))).
  rewrite <- getFullYear_eq.
  destruct (subYears_fields tz now) as (-> & _). lia.
Qed.

(** C9. For every current date, empty slots occur only as a prefix of the
    first week and a suffix of the last week; the weeks in between hold days
    only; and the slots in order, the empty ones dropped, are the days of
    the window in chronological order. *)
Theorem padding_only_at_both_ends (tz now : Z) :
  exists weeks labels (leading trailing : nat)
         (firstDays lastDays : list string) (chunks : list (list string)),
    calendarSkeleton tz now = Some (weeks, labels) /\
    weeks = (replicate leading None ++ map Some firstDays)
              :: map (map Some) chunks
              ++ [map Some lastDays ++ replicate trailing None] /\
    firstDays <> [] /\ lastDays <> [] /\
    realDays (concat weeks) = firstDays ++ concat chunks ++ lastDays /\
    let d0 := Day (LocalTime tz (subYears tz now 1)) in
    let d1 := Day (LocalTime tz now) in
    realDays (concat weeks) = map (dayKey tz) (seqZ d0 (d1 - d0 + 1)).
Proof.
  destruct (calendarSkeleton_shape tz now)
    as (weeks & leading & trailing & fd & ld & ch
        & S & _ & _ & _ & C & W & N1 & N2 & D).
  exists weeks, (monthLabels tz (subYears tz now 1)), leading, trailing, fd, ld, ch.
  assert (R : realDays (concat weeks) = windowDays tz now).
  { rewrite C, !realDays_app, !realDays_replicate, realDays_map_Some.
    rewrite app_nil_r. reflexivity. }
  repeat split; try assumption.
  rewrite R. exact D.
Qed.

(** C6. The month-label loop makes 13 labels, but their keys are not always
    distinct: [setMonth] keeps the day of the month, so from a window start
    on the 31st the months without a 31st are skipped and their successors
    come twice.  On 2024-01-31 the keys "Mar 2023", "May 2023", "Jul 2023",
    "Oct 2023" and "Dec 2023" occur twice each. *)
Theorem monthLabels_repeat_keys :
  (forall tz yearAgo, length (monthLabels tz yearAgo) = 13%nat) /\
  let now := noonOf 0 2024 0 31 in
  format_yyyy_MM_dd 0 now = "2024-01-31" /\
  exists weeks labels,
    calendarSkeleton 0 now = Some (weeks, labels) /\
    map key labels
    = ["Jan 2023"; "Mar 2023"; "Mar 2023"; "May 2023"; "May 2023";
       "Jul 2023"; "Jul 2023"; "Aug 2023"; "Oct 2023"; "Oct 2023";
       "Dec 2023"; "Dec 2023"; "Jan 2024"] /\
    ~ NoDup (map key labels).
Proof.
  split; [intros tz yearAgo; reflexivity | ].
  cbv zeta. split; [vm_compute; reflexivity | ].
  pose proof (calendarSkeleton_returns 0 (noonOf 0 2024 0 31)) as S.
  cbv zeta in S. eexists _, _. split; [exact S | ].
  assert (K : map key (monthLabels 0 (subYears 0 (noonOf 0 2024 0 31) 1))
              = ["Jan 2023"; "Mar 2023"; "Mar 2023"; "May 2023"; "May 2023";
                 "Jul 2023"; "Jul 2023"; "Aug 2023"; "Oct 2023"; "Oct 2023";
                 "Dec 2023"; "Dec 2023"; "Jan 2024"])
    by (vm_compute; reflexivity).
  split; [exact K | ]. rewrite K. intros N.
  apply NoDup_cons in N as [_ N]. apply NoDup_cons in N as [N _].
  apply N. left.
Qed.

(** C7. Two completion events on the same local calendar day, whatever
    their times of day, give one entry, under the key of that day, with
    count 2; and any number of events on one day give one entry whose count
    is their number. *)
Theorem same_day_events_share_a_key (tz : Z) :
  (forall e1 e2 : Completion,
     Day (LocalTime tz (completedAt e1)) = Day (LocalTime tz (completedAt e2)) ->
     completionCounts tz [e1; e2]
     = {[ format_yyyy_MM_dd tz (completedAt e1) := 2 ]}) /\
  (forall (d : Z) (events : list Completion),
     events <> [] ->
     Forall (fun e => Day (LocalTime tz (completedAt e)) = d) events ->
     completionCounts tz events
     = {[ dayKey tz d := Z.of_nat (length events) ]}).
Proof.
  assert (G : forall (d : Z) (events : list Completion),
     events <> [] ->
     Forall (fun e => Day (LocalTime tz (completedAt e)) = d) events ->
     completionCounts tz events
     = {[ dayKey tz d := Z.of_nat (length events) ]}).
  { intros d events N F.
    assert (F' : Forall (fun e => dateKeyOf tz e = dayKey tz d) events).
    { eapply Forall_impl; [exact F | ]. intros e E. cbn beta in E.
      unfold dateKeyOf. rewrite format_dayKey, E. reflexivity. }
    apply map_eq. intros k. rewrite completionCounts_lookup.
    destruct (decide (k = dayKey tz d)) as [-> | Nk].
    - rewrite lookup_singleton_eq, (occurrences_all tz _ _ F').
      destruct events; [contradiction | ]. reflexivity.
    - rewrite lookup_singleton_ne by congruence.
      rewrite (occurrences_other tz _ _ _ F' Nk). reflexivity. }
  split; [ | exact G].
  intros e1 e2 E.
  rewrite (G (Day (LocalTime tz (completedAt e1))) [e1; e2]).
  - rewrite <- format_dayKey. reflexivity.
  - discriminate.
  - repeat constructor. symmetry. exact E.
Qed.

(** C8. The completion counts do not depend on the order of the events:
    a list and any reordering of it give the same mapping. *)
Theorem completionCounts_Permutation (tz : Z) (l1 l2 : list Completion) :
  l1 ≡ₚ l2 -> completionCounts tz l1 = completionCounts tz l2.
Proof.
  intros P. apply map_eq. intros k.
  rewrite !completionCounts_lookup, (occurrences_Permutation tz k l1 l2 P).
  reflexivity.
Qed.

(** C10. Every key of the mapping has a count of at least 1; a day without
    events has no entry, and the cell of such a day shows 0 by the default
    of its lookup ([completionCounts[day] || 0]). *)
Theorem stored_counts_are_positive (tz : Z) (completions : list Completion) :
  (forall k v, completionCounts tz completions !! k = Some v -> 1 <= v) /\
  (forall k, completionCounts tz completions !! k = None <->
             Forall (fun c => format_yyyy_MM_dd tz (completedAt c) <> k)
               completions) /\
  (forall k, completionCounts tz completions !! k = None ->
             cellCount (completionCounts tz completions) k = 0).
Proof.
  split; [ | split].
  - intros k v. rewrite completionCounts_lookup.
    pose proof (occurrences_nonneg tz k completions).
    destruct (Z.eqb_spec (occurrences tz k completions) 0); [discriminate | ].
    intros [= <-]. lia.
  - intros k. rewrite completionCounts_lookup.
    destruct (Z.eqb_spec (occurrences tz k completions) 0) as [E | N].
    + split; [intros _ | reflexivity].
      induction completions as [ | c l IH]; [constructor | ].
      cbn [occurrences] in E. pose proof (occurrences_nonneg tz k l).
      unfold dateKeyOf in E at 1.
      case_decide as D; [lia | ]. constructor; [exact D | apply IH; lia].
    + split; [discriminate | ]. intros F. exfalso. apply N. clear N.
      induction F as [ | c l Hc _ IH]; [reflexivity | ].
      cbn [occurrences]. unfold dateKeyOf at 1.
      rewrite decide_False by exact Hc. lia.
  - intros k E. unfold cellCount. rewrite E. reflexivity.
Qed.

(** * The claims at concrete inputs *)

Example getColorClass_buckets_at_7 :
  0 <= 7 /\
  exists b, spec_colorBucketFor 7 = Some b /\
            getColorClass 7 = bucketClass b /\
            forall b', getColorClass 7 = bucketClass b' -> b' = b.
Proof.
  split; [lia | ]. apply (proj1 getColorClass_buckets 7). lia.
Defined.

(** Local noon of 2024-03-15, in UTC. *)
Example leading_padding_on_2024_03_15 :
  exists first rest labels,
    calendarSkeleton 0 (noonOf 0 2024 2 15) = Some (first :: rest, labels) /\
    format_yyyy_MM_dd 0 (subYears 0 (noonOf 0 2024 2 15) 1) = "2023-03-15" /\
    getDay 0 (subYears 0 (noonOf 0 2024 2 15) 1) = 3 /\
    leadingEmpty first = 3%nat.
Proof.
  destruct (leading_padding_is_weekday 0 (noonOf 0 2024 2 15))
    as (first & rest & labels & S & _ & _ & H).
  exists first, rest, labels. split; [exact S | ].
  apply H; vm_compute; reflexivity.
Defined.

Example grid_days_on_2024_03_15 :
  2 <= getFullYear 0 (noonOf 0 2024 2 15) /\
  exists weeks labels,
    calendarSkeleton 0 (noonOf 0 2024 2 15) = Some (weeks, labels) /\
    length (realDays (concat weeks)) = 367%nat /\
    NoDup (realDays (concat weeks)).
Proof.
  assert (H : 2 <= getFullYear 0 (noonOf 0 2024 2 15))
    by (vm_compute; discriminate).
  split; [exact H | ].
  destruct (grid_days_are_the_window 0 (noonOf 0 2024 2 15))
    as (weeks & labels & S & R & _ & _ & _ & _ & N).
  exists weeks, labels. split; [exact S | split; [ | exact (N H)]].
  rewrite R. vm_compute. reflexivity.
Defined.

Example two_events_on_1970_01_01 :
  completionCounts 0
    [ {| habitId := "h1"; completedAt := 1000 |};
      {| habitId := "h2"; completedAt := 80000000 |} ]
  = {[ "1970-01-01" := 2 ]}.
Proof.
  apply (proj1 (same_day_events_share_a_key 0)
           {| habitId := "h1"; completedAt := 1000 |}
           {| habitId := "h2"; completedAt := 80000000 |}).
  vm_compute. reflexivity.
Defined.

Example counts_of_swapped_events :
  [ {| habitId := "h1"; completedAt := 1000 |};
    {| habitId := "h2"; completedAt := 90000000 |} ]
  ≡ₚ [ {| habitId := "h2"; completedAt := 90000000 |};
       {| habitId := "h1"; completedAt := 1000 |} ] /\
  completionCounts 0
    [ {| habitId := "h1"; completedAt := 1000 |};
      {| habitId := "h2"; completedAt := 90000000 |} ]
  = completionCounts 0
      [ {| habitId := "h2"; completedAt := 90000000 |};
        {| habitId := "h1"; completedAt := 1000 |} ].
Proof.
  assert (P : [ {| habitId := "h1"; completedAt := 1000 |};
                {| habitId := "h2"; completedAt := 90000000 |} ]
              ≡ₚ [ {| habitId := "h2"; completedAt := 90000000 |};
                   {| habitId := "h1"; completedAt := 1000 |} ])
    by apply perm_swap.
  split; [exact P | ]. apply (completionCounts_Permutation 0 _ _ P).
Defined.

Example stored_count_of_one_event :
  completionCounts 0 [ {| habitId := "h1"; completedAt := 1000 |} ]
    !! "1970-01-01" = Some 1 /\
  1 <= 1.
Proof.
  assert (L : completionCounts 0 [ {| habitId := "h1"; completedAt := 1000 |} ]
                !! "1970-01-01" = Some 1)
    by (vm_compute; reflexivity).
  split; [exact L | ].
  apply (proj1 (stored_counts_are_positive 0
                  [ {| habitId := "h1"; completedAt := 1000 |} ])
           "1970-01-01" 1 L).
Defined.

(** * Further properties of the code *)

(** ** The layout of the grid *)

Lemma lookup_concat_fullWeek (weeks : list Week) : forall (i j : nat) week slot,
  Forall fullWeek weeks ->
  weeks !! i = Some week -> week !! j = Some slot ->
  concat weeks !! (7 * i + j)%nat = Some slot.
Proof.
  induction weeks as [ | w weeks IH]; intros i j week slot F Hi Hj;
    [discriminate Hi | ].
  apply Forall_cons_1 in F. destruct F as [Fw F]. unfold fullWeek in Fw.
  cbn [concat]. destruct i as [ | i].
  - injection Hi as ->. rewrite Nat.mul_0_r, Nat.add_0_l.
    rewrite lookup_app_l by (apply lookup_lt_Some in Hj; lia). exact Hj.
  - cbn [lookup list_lookup] in Hi. rewrite lookup_app_r by lia.
    replace (7 * S i + j - length w)%nat with (7 * i + j)%nat by lia.
    apply (IH i j week slot F Hi Hj).
Qed.

Lemma windowDays_lookup tz today (k : nat) day :
  windowDays tz today !! k = Some day ->
  let d0 := Day (LocalTime tz (subYears tz today 1)) in
  d0 + Z.of_nat k <= Day (LocalTime tz today) /\
  day = dayKey tz (d0 + Z.of_nat k).
Proof.
  unfold windowDays. cbv zeta. intros H.
  change (map (dayKey tz)) with (fmap (M := list) (dayKey tz)) in H.
  rewrite list_lookup_fmap in H.
  destruct (seqZ _ _ !! k) as [d | ] eqn:E; [ | discriminate H].
  injection H as <-. apply lookup_seqZ in E. destruct E as [-> E].
  split; [lia | reflexivity].
Qed.

(** The sizes of the grid: the leading padding is the weekday of the window
    start, the trailing padding what is left of the week after the weekday
    of today, and there are 53 or 54 weeks. *)
Lemma calendarSkeleton_sizes tz today (weeks : list Week) (leading trailing : nat) :
  Forall fullWeek weeks ->
  Z.of_nat leading = getDay tz (subYears tz today 1) ->
  (trailing < 7)%nat ->
  concat weeks
  = replicate leading None ++ map Some (windowDays tz today)
    ++ replicate trailing None ->
  Z.of_nat trailing = 6 - getDay tz today /\
  (length weeks = 53%nat \/ length weeks = 54%nat).
Proof.
  intros F L T C.
  pose proof (concat_fullWeek_length weeks F) as Len.
  rewrite C, !length_app, !length_replicate, length_map in Len.
  pose proof (windowDays_length tz today) as N.
  assert (W : Z.of_nat (length (windowDays tz today))
              = Day (LocalTime tz today) - yearAgoDay tz today + 1).
  { unfold windowDays. cbv zeta. rewrite length_map, length_seqZ, Day_subYears.
    destruct (yearAgoDay_distance tz today) as [E | E]; cbv zeta in E; lia. }
  rewrite getDay_eq, Day_subYears in L. rewrite getDay_eq.
  revert Len N W L. generalize (length (windowDays tz today)) (length weeks)
    (Day (LocalTime tz today)) (yearAgoDay tz today).
  clear - T. intros n w d1 d0 Len N W L.
  assert (Z.of_nat leading + Z.of_nat n + Z.of_nat trailing = 7 * Z.of_nat w)
    by lia.
  split; Z.div_mod_to_equations; lia.
Qed.

Lemma trailingEmpty_replicate n day days :
  trailingEmpty (map Some (days ++ [day]) ++ replicate n None) = n.
Proof.
  unfold trailingEmpty. rewrite rev_app_distr, map_app, rev_app_distr.
  cbn [map rev app].
  replace (rev (replicate n (@None string))) with (replicate n (@None string)).
  - apply leadingEmpty_replicate.
  - induction n as [ | n IH]; [reflexivity | ].
    cbn [replicate rev]. rewrite <- IH.
    clear IH. induction n as [ | n IH]; [reflexivity | ].
    cbn [replicate app]. rewrite <- IH. reflexivity.
Qed.

(** X1. For every current date the grid has 53 or 54 week columns. *)
Theorem grid_has_53_or_54_weeks (tz now : Z) :
  exists weeks labels,
    calendarSkeleton tz now = Some (weeks, labels) /\
    (length weeks = 53%nat \/ length weeks = 54%nat).
Proof.
  destruct (calendarSkeleton_shape tz now)
    as (weeks & leading & trailing & fd & ld & ch & S & F & L & T & C & _).
  exists weeks, (monthLabels tz (subYears tz now 1)).
  split; [exact S | ].
  apply (calendarSkeleton_sizes tz now weeks leading trailing F L T C).
Qed.

(** X2. For every current date the last week ends with [6 - getDay(now)]
    empty slots: its last day, today, is in the column of today's weekday,
    and there is no trailing padding when today is a Saturday. *)
Theorem trailing_padding_completes_the_week (tz now : Z) :
  exists weeks labels lastWeek,
    calendarSkeleton tz now = Some (weeks, labels) /\
    last weeks = Some lastWeek /\
    Z.of_nat (trailingEmpty lastWeek) = 6 - getDay tz now /\
    lastWeek !! Z.to_nat (getDay tz now)
    = Some (Some (format_yyyy_MM_dd tz now)).
Proof.
  destruct (calendarSkeleton_shape tz now)
    as (weeks & leading & trailing & fd & ld & ch
        & S & F & L & T & C & W & N1 & N2 & D).
  destruct (calendarSkeleton_sizes tz now weeks leading trailing F L T C)
    as [Tr _].
  exists weeks, (monthLabels tz (subYears tz now 1)),
    (map Some ld ++ replicate trailing None).
  split; [exact S | ].
  split; [rewrite W; rewrite app_comm_cons; apply last_snoc | ].
  destruct ld as [ | x ld _] using rev_ind; [contradiction | ]. clear N2.
  split; [rewrite trailingEmpty_replicate; exact Tr | ].
  (* the last day of the window is today *)
  assert (Hl : x = format_yyyy_MM_dd tz now).
  { assert (E : last (windowDays tz now) = Some x)
      by (rewrite D, !app_assoc; apply last_snoc).
    unfold windowDays in E. cbv zeta in E.
    change (map (dayKey tz)) with (fmap (M := list) (dayKey tz)) in E.
    rewrite fmap_last in E.
    destruct (last (seqZ _ _)) as [d | ] eqn:Ed; [ | discriminate E].
    injection E as <-. rewrite last_lookup, length_seqZ in Ed.
    apply lookup_seqZ in Ed. destruct Ed as [-> Ed].
    rewrite format_dayKey. f_equal.
    rewrite Day_subYears in *.
    destruct (yearAgoDay_distance tz now) as [E | E]; cbv zeta in E; lia. }
  subst x.
  (* it is the slot before the trailing padding *)
  assert (Fl : fullWeek (map Some (ld ++ [format_yyyy_MM_dd tz now])
                         ++ replicate trailing None)).
  { rewrite W in F. apply Forall_cons_1 in F. destruct F as [_ F].
    apply Forall_app in F. destruct F as [_ F].
    apply Forall_cons_1 in F. apply F. }
  unfold fullWeek in Fl.
  rewrite length_app, length_map, length_app, length_replicate in Fl.
  cbn [length] in Fl.
  pose proof (getDay_range tz now) as R.
  rewrite lookup_app_l by (rewrite length_map, length_app; cbn; lia).
  rewrite map_app. cbn [map].
  rewrite lookup_app_r by (rewrite length_map; lia).
  rewrite length_map.
  replace (Z.to_nat (getDay tz now) - length ld)%nat with 0%nat by lia.
  reflexivity.
Qed.

(** The slot [j] of the week [i] of a grid, when it holds a day. *)
Lemma grid_slot tz today (weeks : list Week) (leading trailing : nat)
    (i j : nat) (week : Week) (day : string) :
  Forall fullWeek weeks ->
  Z.of_nat leading = getDay tz (subYears tz today 1) ->
  concat weeks
  = replicate leading None ++ map Some (windowDays tz today)
    ++ replicate trailing None ->
  weeks !! i = Some week -> week !! j = Some (Some day) ->
  exists d : Z,
    Day (LocalTime tz (subYears tz today 1)) <= d <= Day (LocalTime tz today) /\
    d = Day (LocalTime tz (subYears tz today 1))
        + 7 * Z.of_nat i + Z.of_nat j - getDay tz (subYears tz today 1) /\
    day = dayKey tz d /\
    getDay tz (midnight tz d) = Z.of_nat j.
Proof.
  intros F L C Hi Hj.
  pose proof (lookup_concat_fullWeek weeks i j week (Some day) F Hi Hj) as E.
  assert (Hj7 : (j < 7)%nat).
  { apply lookup_lt_Some in Hj.
    rewrite Forall_forall in F. specialize (F week).
    unfold fullWeek in F. rewrite <- F; [exact Hj | ].
    eapply list_elem_of_lookup_2. exact Hi. }
  rewrite C in E.
  destruct (Nat.lt_ge_cases (7 * i + j) leading) as [Lt | Ge].
  { rewrite lookup_app_l in E by (rewrite length_replicate; exact Lt).
    apply lookup_replicate in E. destruct E as [E _]. discriminate E. }
  rewrite lookup_app_r in E by (rewrite length_replicate; exact Ge).
  rewrite length_replicate in E.
  destruct (Nat.lt_ge_cases (7 * i + j - leading)
              (length (windowDays tz today))) as [Lt | Ge'].
  2:{ rewrite lookup_app_r in E by (rewrite length_map; exact Ge').
      apply lookup_replicate in E. destruct E as [E _]. discriminate E. }
  rewrite lookup_app_l in E by (rewrite length_map; exact Lt).
  change (map Some) with (fmap (M := list) (@Some string)) in E.
  rewrite list_lookup_fmap in E.
  destruct (windowDays tz today !! (7 * i + j - leading)%nat) as [k | ] eqn:Ek;
    [ | discriminate E].
  injection E as ->.
  apply windowDays_lookup in Ek. cbv zeta in Ek. destruct Ek as [Le ->].
  exists (Day (LocalTime tz (subYears tz today 1))
          + Z.of_nat (7 * i + j - leading)).
  split; [lia | ]. split; [lia | ]. split; [reflexivity | ].
  rewrite getDay_eq, Day_midnight. rewrite getDay_eq in L.
  revert L. generalize (Day (LocalTime tz (subYears tz today 1))).
  clear - Ge Hj7. intros d0 L.
  replace (Z.of_nat (7 * i + j - leading))
    with (7 * Z.of_nat i + Z.of_nat j - Z.of_nat leading) by lia.
  Z.div_mod_to_equations. lia.
Qed.

(** X3. For every current date, each day of the grid is in the row of its
    own weekday: the slot [j] (0 = Sunday) of week [i] holds the key of a
    day of the window whose weekday is [j], namely the day
    [7 * i + j - getDay(yearAgo)] days after the window start. *)
Theorem day_slots_lie_in_their_weekday_row (tz now : Z) :
  exists weeks labels,
    calendarSkeleton tz now = Some (weeks, labels) /\
    forall (i j : nat) (week : Week) (day : string),
      weeks !! i = Some week -> week !! j = Some (Some day) ->
      exists d : Z,
        Day (LocalTime tz (subYears tz now 1)) <= d <= Day (LocalTime tz now) /\
        d = Day (LocalTime tz (subYears tz now 1))
            + 7 * Z.of_nat i + Z.of_nat j - getDay tz (subYears tz now 1) /\
        day = dayKey tz d /\
        getDay tz (midnight tz d) = Z.of_nat j.
Proof.
  destruct (calendarSkeleton_shape tz now)
    as (weeks & leading & trailing & fd & ld & ch & S & F & L & T & C & _).
  exists weeks, (monthLabels tz (subYears tz now 1)).
  split; [exact S | ].
  intros i j week day Hi Hj.
  apply (grid_slot tz now weeks leading trailing i j week day F L C Hi Hj).
Qed.

(** ** The counts of the cells *)

Section CellCounts.

Variable tz : Z.

Lemma occurrences_filter k (l : list Completion) :
  occurrences tz k l
  = Z.of_nat (length (filter (fun c => dateKeyOf tz c = k) l)).
Proof.
  induction l as [ | c l IH]; [reflexivity | ].
  cbn [occurrences]. rewrite filter_cons. case_decide; cbn [length]; lia.
Qed.

Lemma cellCount_occurrences k (l : list Completion) :
  cellCount (completionCounts tz l) k = occurrences tz k l.
Proof.
  unfold cellCount. rewrite completionCounts_lookup.
  destruct (Z.eqb_spec (occurrences tz k l) 0) as [E | N];
    [cbn; lia | apply orZero_Some].
Qed.

Lemma occurrences_app k (l1 l2 : list Completion) :
  occurrences tz k (l1 ++ l2) = occurrences tz k l1 + occurrences tz k l2.
Proof. induction l1 as [ | c l1 IH]; cbn [app occurrences]; lia. Qed.

Lemma filter_all {A} (P : A -> Prop) `{forall x, Decision (P x)} (l : list A) :
  Forall P l -> filter P l = l.
Proof.
  induction 1 as [ | x l Hx _ IH]; [reflexivity | ].
  rewrite filter_cons, decide_True by exact Hx. f_equal. exact IH.
Qed.

Lemma sum_indicator (x : string) (keys : list string) :
  NoDup keys ->
  foldr Z.add 0 (map (fun k => if decide (x = k) then 1 else 0) keys)
  = if decide (x ∈ keys) then 1 else 0.
Proof.
  induction 1 as [ | k keys Hk Hn IH]; cbn [map foldr].
  - rewrite decide_False by apply not_elem_of_nil. reflexivity.
  - rewrite IH. destruct (decide (x = k)) as [-> | Ne].
    + rewrite decide_False by exact Hk.
      rewrite decide_True by apply list_elem_of_here. reflexivity.
    + destruct (decide (x ∈ keys)) as [In | Nin].
      * rewrite decide_True by (apply list_elem_of_further; exact In).
        reflexivity.
      * rewrite decide_False; [reflexivity | ].
        intros H. apply elem_of_cons in H. destruct H; contradiction.
Qed.

Lemma sum_occurrences (keys : list string) (l : list Completion) :
  NoDup keys ->
  foldr Z.add 0 (map (fun k => occurrences tz k l) keys)
  = Z.of_nat (length (filter (fun c => dateKeyOf tz c ∈ keys) l)).
Proof.
  intros N. induction l as [ | c l IH].
  - cbn [occurrences]. induction keys as [ | k keys IHk]; [reflexivity | ].
    cbn [map foldr]. rewrite IHk; [reflexivity | ].
    apply NoDup_cons in N. apply N.
  - rewrite filter_cons. cbn [occurrences].
    assert (E : foldr Z.add 0
                  (map (fun k => (if decide (dateKeyOf tz c = k) then 1 else 0)
                                 + occurrences tz k l) keys)
                = foldr Z.add 0
                    (map (fun k => if decide (dateKeyOf tz c = k) then 1 else 0)
                       keys)
                  + foldr Z.add 0 (map (fun k => occurrences tz k l) keys)).
    { clear. induction keys as [ | k keys IHk]; [reflexivity | ].
      cbn [map foldr]. rewrite IHk. lia. }
    rewrite E, IH, (sum_indicator _ _ N).
    case_decide; cbn [length]; lia.
Qed.

Lemma cellCountsSum_occurrences (weeks : list Week) (l : list Completion) :
  cellCountsSum (completionCounts tz l) weeks
  = foldr Z.add 0
      (map (fun k => occurrences tz k l) (realDays (concat weeks))).
Proof.
  unfold cellCountsSum. f_equal. apply map_ext. intros k.
  apply cellCount_occurrences.
Qed.

End CellCounts.

(** X4. The count a cell shows for a day key is the number of completions
    whose time falls, in local time, on the day of that key; a key without
    completions shows 0. *)
Theorem cellCount_counts_the_events (tz : Z) (completions : list Completion)
    (day : string) :
  cellCount (completionCounts tz completions) day
  = Z.of_nat
      (length (filter (fun c => format_yyyy_MM_dd tz (completedAt c) = day)
                 completions)).
Proof.
  rewrite cellCount_occurrences. apply occurrences_filter.
Qed.

(** X5. Counting two batches of completions together gives, for every day,
    the sum of the counts of the batches; so does the total. *)
Theorem completionCounts_of_app (tz : Z) (l1 l2 : list Completion) :
  (forall day,
     cellCount (completionCounts tz (l1 ++ l2)) day
     = cellCount (completionCounts tz l1) day
       + cellCount (completionCounts tz l2) day) /\
  totalCompletions (completionCounts tz (l1 ++ l2))
  = totalCompletions (completionCounts tz l1)
    + totalCompletions (completionCounts tz l2).
Proof.
  split.
  - intros day. rewrite !cellCount_occurrences. apply occurrences_app.
  - unfold completionCounts.
    rewrite !fold_countCompletion_total, totalCompletions_empty, length_app.
    lia.
Qed.

(** X6. A day cell gets the neutral class of the empty bucket exactly when
    no completion falls on its day. *)
Theorem neutral_cell_iff_no_completion (tz : Z) (completions : list Completion)
    (day : string) :
  getColorClass (cellCount (completionCounts tz completions) day)
  = "bg-neutral-100 dark:bg-neutral-800"
  <-> Forall (fun c => format_yyyy_MM_dd tz (completedAt c) <> day) completions.
Proof.
  rewrite cellCount_occurrences.
  pose proof (occurrences_nonneg tz day completions) as P.
  assert (Z0 : occurrences tz day completions = 0
               <-> Forall (fun c => format_yyyy_MM_dd tz (completedAt c) <> day)
                     completions).
  { clear P. induction completions as [ | c l IH].
    - split; [constructor | reflexivity].
    - cbn [occurrences]. pose proof (occurrences_nonneg tz day l) as P.
      unfold dateKeyOf at 1.
      destruct (decide (format_yyyy_MM_dd tz (completedAt c) = day)) as [E | N].
      + split; [intros Z; lia | intros F].
        apply Forall_cons_1 in F. destruct F as [F _]. contradiction.
      + split.
        * intros Z. constructor; [exact N | apply IH; lia].
        * intros F. apply Forall_cons_1 in F. destruct F as [_ F].
          apply IH in F. lia. }
  rewrite <- Z0. unfold getColorClass.
  destruct (Z.eqb_spec (occurrences tz day completions) 0) as [E | N];
    [split; [intros _; exact E | reflexivity] | ].
  split; [ | intros E; contradiction].
  destruct (Z.leb_spec (occurrences tz day completions) 2);
    [intros E; discriminate E | ].
  destruct (Z.leb_spec (occurrences tz day completions) 5);
    [intros E; discriminate E | ].
  destruct (Z.leb_spec (occurrences tz day completions) 10);
    intros E; discriminate E.
Qed.

(** X7. One more completion adds 1 to the count of its own day, leaves the
    counts of all other days as they are, and never moves a cell to a lower
    bucket. *)
Theorem one_more_completion (tz : Z) (completions : list Completion)
    (c : Completion) :
  let before := completionCounts tz completions in
  let after := completionCounts tz (completions ++ [c]) in
  cellCount after (format_yyyy_MM_dd tz (completedAt c))
  = cellCount before (format_yyyy_MM_dd tz (completedAt c)) + 1 /\
  (forall day, day <> format_yyyy_MM_dd tz (completedAt c) ->
     cellCount after day = cellCount before day) /\
  (forall day b1 b2,
     getColorClass (cellCount before day) = bucketClass b1 ->
     getColorClass (cellCount after day) = bucketClass b2 ->
     bucketRank b1 <= bucketRank b2).
Proof.
  cbv zeta.
  assert (A : forall day,
            cellCount (completionCounts tz (completions ++ [c])) day
            = cellCount (completionCounts tz completions) day
              + (if decide (dateKeyOf tz c = day) then 1 else 0)).
  { intros day. rewrite !cellCount_occurrences, occurrences_app.
    cbn [occurrences]. lia. }
  split; [ | split].
  - rewrite A, decide_True by reflexivity. reflexivity.
  - intros day N. rewrite A, decide_False; [lia | ].
    unfold dateKeyOf. congruence.
  - intros day b1 b2 C1 C2.
    pose proof (occurrences_nonneg tz day completions) as P.
    rewrite <- cellCount_occurrences in P.
    specialize (A day). revert A C1 C2 P.
    generalize (cellCount (completionCounts tz completions) day)
      (cellCount (completionCounts tz (completions ++ [c])) day).
    intros n1 n2 A C1 C2 P.
    assert (Q : n1 <= n2) by (case_decide; lia).
    destruct (getColorClass_spec n1 P) as (b1' & S1 & C1').
    destruct (getColorClass_spec n2 ltac:(lia)) as (b2' & S2 & C2').
    assert (b1 = b1') by (apply bucketClass_inj; congruence).
    assert (b2 = b2') by (apply bucketClass_inj; congruence).
    subst b1' b2'.
    apply (spec_colorBucketFor_mono n1 n2); [lia | exact S1 | exact S2].
Qed.

(** X8. The counts of the day cells of the grid add up to the number of
    completions whose key is a day of the grid (the clock being in year 2
    or later).  This is at most the total shown above the grid, and it is
    that total when all completions fall on days of the window. *)
Theorem cells_add_up_to_the_completions_of_the_window (tz now : Z)
    (completions : list Completion) :
  2 <= getFullYear tz now ->
  exists weeks labels,
    calendarSkeleton tz now = Some (weeks, labels) /\
    cellCountsSum (completionCounts tz completions) weeks
    = Z.of_nat
        (length
           (filter (fun c => format_yyyy_MM_dd tz (completedAt c)
                             ∈ realDays (concat weeks)) completions)) /\
    cellCountsSum (completionCounts tz completions) weeks
    <= totalCompletions (completionCounts tz completions) /\
    (Forall (fun c => Day (LocalTime tz (subYears tz now 1))
                      <= Day (LocalTime tz (completedAt c))
                      <= Day (LocalTime tz now)) completions ->
     cellCountsSum (completionCounts tz completions) weeks
     = totalCompletions (completionCounts tz completions)).
Proof.
  intros Hy.
  destruct (calendarSkeleton_shape tz now)
    as (weeks & leading & trailing & fd & ld & ch & S & _ & _ & _ & C & _).
  exists weeks, (monthLabels tz (subYears tz now 1)).
  split; [exact S | ].
  assert (R : realDays (concat weeks) = windowDays tz now).
  { rewrite C, !realDays_app, !realDays_replicate, realDays_map_Some.
    rewrite app_nil_r. reflexivity. }
  assert (N : NoDup (realDays (concat weeks))).
  { rewrite R. apply dayKeys_NoDup.
    change (1 <= YearFromTime (LocalTime tz (subYears tz now 1))).
    rewrite <- getFullYear_eq.
    destruct (subYears_fields tz now) as (-> & _). lia. }
  rewrite cellCountsSum_occurrences, (sum_occurrences tz _ completions N).
  unfold completionCounts at 1 2.
  rewrite !fold_countCompletion_total, totalCompletions_empty.
  split; [reflexivity | ].
  split.
  - pose proof (length_filter
                  (fun c => dateKeyOf tz c ∈ realDays (concat weeks))
                  completions). lia.
  - intros F. rewrite Z.add_0_l. f_equal. f_equal. apply filter_all.
    eapply Forall_impl; [exact F | ]. intros c Hc. cbn beta in Hc.
    unfold dateKeyOf. rewrite R, format_dayKey. unfold windowDays. cbv zeta.
    apply list_elem_of_fmap. exists (Day (LocalTime tz (completedAt c))).
    split; [reflexivity | ]. apply elem_of_seqZ. lia.
Qed.

(** ** More on the month labels *)

Section MoreMonthLabels.

Variable tz : Z.

Lemma format_MMM_eq date :
  format_MMM tz date
  = nth (Z.to_nat (MonthFromTime (LocalTime tz date))) monthAbbreviated
      EmptyString.
Proof. reflexivity. Qed.

(** [setMonth] lands in the month asked for when that month has the day. *)
Lemma setMonth_fields_valid date month :
  getDate tz date
  <= daysInMonth (leapDays (getFullYear tz date + month / 12)) (month mod 12) ->
  YearFromTime (LocalTime tz (setMonth tz date month))
  = getFullYear tz date + month / 12 /\
  MonthFromTime (LocalTime tz (setMonth tz date month)) = month mod 12.
Proof.
  intros H.
  pose proof (DateFromTime_range (LocalTime tz date)) as D.
  rewrite getDate_eq, getFullYear_eq in H. rewrite getFullYear_eq.
  assert (E : Day (LocalTime tz (setMonth tz date month))
              = MakeDay (YearFromTime (LocalTime tz date) + month / 12)
                  (month mod 12) (DateFromTime (LocalTime tz date))).
  { unfold setMonth, setMonth2. rewrite LocalTime_UTC, getDate_eq.
    rewrite Day_MakeDate by apply TimeWithinDay_range.
    apply MakeDay_carry. }
  revert H D E. generalize (LocalTime tz (setMonth tz date month)).
  generalize (LocalTime tz date). intros t t' H D E.
  pose proof (Z.mod_pos_bound month 12 ltac:(lia)) as M.
  assert (M' : 0 <= month mod 12 <= 11) by lia.
  unfold leapDays in H.
  assert (D' : 1 <= DateFromTime t
               <= daysInMonth
                    (if isLeapYear (YearFromTime t + month / 12) then 1 else 0)
                    (month mod 12)) by lia.
  destruct (fields_of_MakeDay t' (YearFromTime t + month / 12) (month mod 12)
              (DateFromTime t) M' D' E) as (Y & Mo & _).
  split; assumption.
Qed.

Lemma setMonth_same date : setMonth tz date (getMonth tz date) = date.
Proof.
  unfold setMonth, setMonth2. rewrite getMonth_eq, getDate_eq.
  rewrite MakeDay_fields, MakeDate_Day_TimeWithinDay. apply UTC_LocalTime.
Qed.

Lemma monthLabels_lookup yearAgo (i : nat) :
  (i < 13)%nat ->
  monthLabels tz yearAgo !! i = Some (monthLabel tz yearAgo (Z.of_nat i)).
Proof.
  intros H. unfold monthLabels.
  change (map (monthLabel tz yearAgo))
    with (fmap (M := list) (monthLabel tz yearAgo)).
  rewrite list_lookup_fmap.
  rewrite (proj2 (lookup_seqZ 0 13 i (0 + Z.of_nat i)))
    by (split; [reflexivity | lia]).
  reflexivity.
Qed.

(** The label [i] of a window that starts on the 28th or earlier. *)
Lemma monthLabel_consecutive yearAgo i :
  1 <= getFullYear tz yearAgo -> getDate tz yearAgo <= 28 -> 0 <= i ->
  monthLabel tz yearAgo i
  = {| key := (nth (Z.to_nat ((getMonth tz yearAgo + i) mod 12))
                 monthAbbreviated EmptyString
               ++ " "
               ++ addLeadingZeros
                    (getFullYear tz yearAgo + (getMonth tz yearAgo + i) / 12)
                    4)%string;
       label := nth (Z.to_nat ((getMonth tz yearAgo + i) mod 12))
                  monthAbbreviated EmptyString |}.
Proof.
  intros Hy Hd Hi.
  rewrite monthLabel_eq, format_MMM_yyyy_eq, format_MMM_eq.
  destruct (setMonth_fields tz yearAgo (getMonth tz yearAgo + i) Hd)
    as (Y & M).
  cbv zeta in Y, M. rewrite Y, M.
  pose proof (MonthFromTime_range (LocalTime tz yearAgo)) as R.
  rewrite <- getMonth_eq in R.
  assert (Q : 0 <= (getMonth tz yearAgo + i) / 12) by (apply Z.div_pos; lia).
  destruct (Z.gtb_spec (getFullYear tz yearAgo
                        + (getMonth tz yearAgo + i) / 12) 0); [ | lia].
  reflexivity.
Qed.

End MoreMonthLabels.

(** X9. When today is the 28th of its month or earlier (in year 2 or
    later), the 13 month labels are the 13 consecutive months from the month
    of today one year ago to the month of today, each with the short name
    of its month as text, and their keys are pairwise distinct. *)
Theorem monthLabels_up_to_the_28th (tz now : Z) :
  2 <= getFullYear tz now -> getDate tz now <= 28 ->
  exists weeks labels,
    calendarSkeleton tz now = Some (weeks, labels) /\
    NoDup (map key labels) /\
    forall i : nat, (i <= 12)%nat ->
      let month := getMonth tz now + Z.of_nat i in
      labels !! i
      = Some {| key := (nth (Z.to_nat (month mod 12)) monthAbbreviated
                          EmptyString
                        ++ " "
                        ++ addLeadingZeros
                             (getFullYear tz now - 1 + month / 12) 4)%string;
                label := nth (Z.to_nat (month mod 12)) monthAbbreviated
                           EmptyString |}.
Proof.
  intros Hy Hd.
  destruct (calendarSkeleton_shape tz now)
    as (weeks & leading & trailing & fd & ld & ch & S & _).
  exists weeks, (monthLabels tz (subYears tz now 1)).
  destruct (subYears_fields tz now) as (Fy & Fm & Fd).
  assert (Hy' : 1 <= getFullYear tz (subYears tz now 1)) by lia.
  assert (Hd' : getDate tz (subYears tz now 1) <= 28) by lia.
  split; [exact S | split].
  - apply monthLabels_keys_NoDup; assumption.
  - intros i Hi. cbv zeta.
    rewrite monthLabels_lookup by lia.
    rewrite (monthLabel_consecutive tz _ _ Hy' Hd') by lia.
    rewrite Fy, Fm. reflexivity.
Qed.

(** X10. For every current date, the first month label is the month of the
    window start and the last one is the month of today. *)
Theorem first_and_last_month_label (tz now : Z) :
  exists weeks labels,
    calendarSkeleton tz now = Some (weeks, labels) /\
    head labels
    = Some {| key := format_MMM_yyyy tz (subYears tz now 1);
              label := format_MMM tz (subYears tz now 1) |} /\
    last labels
    = Some {| key := format_MMM_yyyy tz now; label := format_MMM tz now |}.
Proof.
  destruct (calendarSkeleton_shape tz now)
    as (weeks & leading & trailing & fd & ld & ch & S & _).
  exists weeks, (monthLabels tz (subYears tz now 1)).
  split; [exact S | split].
  - rewrite head_lookup, monthLabels_lookup by lia.
    rewrite monthLabel_eq. change (Z.of_nat 0) with 0.
    rewrite Z.add_0_r, setMonth_same. reflexivity.
  - rewrite last_lookup.
    replace (pred (length (monthLabels tz (subYears tz now 1)))) with 12%nat
      by reflexivity.
    rewrite monthLabels_lookup by lia.
    rewrite monthLabel_eq, !format_MMM_yyyy_eq, !format_MMM_eq.
    destruct (subYears_fields tz now) as (Fy & Fm & Fd).
    pose proof (MonthFromTime_range (LocalTime tz now)) as Rm.
    pose proof (DateFromTime_range (LocalTime tz now)) as Rd.
    rewrite <- getMonth_eq, <- getDate_eq in Rd. rewrite <- getMonth_eq in Rm.
    assert (Q : (getMonth tz now + 12) / 12 = 1)
      by (Z.div_mod_to_equations; lia).
    assert (R : (getMonth tz now + 12) mod 12 = getMonth tz now)
      by (Z.div_mod_to_equations; lia).
    destruct (setMonth_fields_valid tz (subYears tz now 1)
                (getMonth tz (subYears tz now 1) + Z.of_nat 12)) as (Y & M).
    { rewrite Fy, Fm, Fd. change (Z.of_nat 12) with 12. rewrite Q, R.
      replace (getFullYear tz now - 1 + 1) with (getFullYear tz now) by lia.
      unfold leapDays. unfold InLeapYear in Rd. rewrite getFullYear_eq. lia. }
    rewrite Y, M, Fy, Fm. change (Z.of_nat 12) with 12. rewrite Q, R.
    replace (getFullYear tz now - 1 + 1) with (getFullYear tz now) by lia.
    rewrite getFullYear_eq, getMonth_eq. reflexivity.
Qed.

(** ** The cells *)

Lemma digitValue_digitChar k : 0 <= k <= 9 -> digitValue (digitChar k) = Some k.
Proof.
  intros H.
  assert (C : k = 0 \/ k = 1 \/ k = 2 \/ k = 3 \/ k = 4 \/ k = 5 \/ k = 6 \/
              k = 7 \/ k = 8 \/ k = 9) by lia.
  repeat destruct C as [-> | C]; try subst k; reflexivity.
Qed.

Lemma addLeadingZeros_fourDigits n :
  0 <= n <= 9999 -> addLeadingZeros n 4 = fourDigits n.
Proof.
  intros H.
  assert (A : forallb (fun n => String.eqb (addLeadingZeros n 4) (fourDigits n))
                (seqZ 0 10000) = true) by (vm_compute; reflexivity).
  rewrite forallb_forall in A. apply String.eqb_eq, A.
  apply list_elem_of_In, elem_of_seqZ. lia.
Qed.

Lemma addLeadingZeros_twoDigits n :
  0 <= n <= 99 -> addLeadingZeros n 2 = twoDigits n.
Proof.
  intros H.
  assert (A : forallb (fun n => String.eqb (addLeadingZeros n 2) (twoDigits n))
                (seqZ 0 100) = true) by (vm_compute; reflexivity).
  rewrite forallb_forall in A. apply String.eqb_eq, A.
  apply list_elem_of_In, elem_of_seqZ. lia.
Qed.

Lemma Date_parse_digits y1 y2 y3 y4 m1 m2 d1 d2 :
  Date_parse
    (String y1 (String y2 (String y3 (String y4 (String "-"
       (String m1 (String m2 (String "-" (String d1 (String d2
          EmptyString))))))))))
  = (a1 ← digitValue y1; a2 ← digitValue y2;
     a3 ← digitValue y3; a4 ← digitValue y4;
     b1 ← digitValue m1; b2 ← digitValue m2;
     c1 ← digitValue d1; c2 ← digitValue d2;
     Date_of_digits a1 a2 a3 a4 b1 b2 c1 c2).
Proof. reflexivity. Qed.

(** [new Date] reads the key of a date of the years 1 to 9999 back as
    midnight UTC of that date. *)
Lemma Date_parse_formatFields y m dt :
  1 <= y <= 9999 -> 0 <= m <= 11 ->
  1 <= dt <= daysInMonth (leapDays y) m ->
  Date_parse (formatFields y m dt) = Some (MakeDate (MakeDay y m dt) 0).
Proof.
  intros Hy Hm Hd. unfold formatFields.
  destruct (Z.gtb_spec y 0); [ | lia].
  pose proof (daysInMonth_le_31 _ _ (leapDays_range y) Hm) as H31.
  rewrite addLeadingZeros_fourDigits, !addLeadingZeros_twoDigits by lia.
  unfold fourDigits, twoDigits.
  rewrite !string_app_cons, !string_app_nil, Date_parse_digits.
  rewrite !digitValue_digitChar by (Z.div_mod_to_equations; lia).
  cbn [mbind option_bind]. unfold Date_of_digits.
  replace (1000 * (y / 1000) + 100 * (y / 100 mod 10) + 10 * (y / 10 mod 10)
           + y mod 10) with y by (Z.div_mod_to_equations; lia).
  replace (10 * ((m + 1) / 10) + (m + 1) mod 10) with (m + 1)
    by (Z.div_mod_to_equations; lia).
  replace (10 * (dt / 10) + dt mod 10) with dt
    by (Z.div_mod_to_equations; lia).
  cbv zeta. fold (leapDays y). replace (m + 1 - 1) with m by lia.
  fold (daysInMonth (leapDays y) m).
  destruct (Z.leb_spec 1 (m + 1)); [ | lia].
  destruct (Z.leb_spec (m + 1) 12); [ | lia].
  destruct (Z.leb_spec 1 dt); [ | lia].
  destruct (Z.leb_spec dt (daysInMonth (leapDays y) m)); [ | lia].
  reflexivity.
Qed.

Lemma zeros_length n : String.length (zeros n) = n.
Proof. induction n as [ | n IH]; cbn; [reflexivity | f_equal; exact IH]. Qed.

Lemma formatFields_nonempty y m dt : formatFields y m dt <> EmptyString.
Proof.
  intros E. apply (f_equal String.length) in E. unfold formatFields in E.
  rewrite string_length_app in E. unfold addLeadingZeros at 1 in E.
  unfold padStart0 in E. rewrite !string_length_app, zeros_length in E.
  cbn [String.length] in E. lia.
Qed.

Section CellProperties.

Variable tz : Z.

Lemma format_MMM_d_yyyy_eq date :
  format_MMM_d_yyyy tz date
  = (nth (Z.to_nat (MonthFromTime (LocalTime tz date))) monthAbbreviated
       EmptyString
     ++ " " ++ addLeadingZeros (DateFromTime (LocalTime tz date)) 1 ++ ", "
     ++ addLeadingZeros
          (if YearFromTime (LocalTime tz date) >? 0
           then YearFromTime (LocalTime tz date)
           else 1 - YearFromTime (LocalTime tz date)) 4)%string.
Proof. reflexivity. Qed.

Lemma cellTitle_same_day a b count :
  Day (LocalTime tz a) = Day (LocalTime tz b) ->
  cellTitle tz a count = cellTitle tz b count.
Proof.
  intros E. unfold cellTitle. rewrite !format_MMM_d_yyyy_eq.
  destruct (fields_same_day _ _ E) as (-> & -> & ->). reflexivity.
Qed.

Lemma dayKey_nonempty d : dayKey tz d <> EmptyString.
Proof.
  unfold dayKey. rewrite format_yyyy_MM_dd_eq. apply formatFields_nonempty.
Qed.

(** [new Date(key)] is midnight UTC of the day of the key. *)
Lemma Date_parse_dayKey d :
  1 <= YearFromDay d <= 9999 ->
  Date_parse (dayKey tz d) = Some (MakeDate d 0).
Proof.
  intros Hy. unfold dayKey. rewrite format_yyyy_MM_dd_eq.
  pose proof (Day_midnight tz d) as E. revert E.
  generalize (LocalTime tz (midnight tz d)). intros t E. subst d.
  fold (YearFromTime t) in Hy.
  pose proof (MonthFromTime_range t) as M.
  pose proof (DateFromTime_range t) as D. unfold InLeapYear in D.
  fold (leapDays (YearFromTime t)) in D.
  rewrite Date_parse_formatFields by assumption.
  rewrite MakeDay_fields. reflexivity.
Qed.

(** The local day of midnight UTC of day [d]. *)
Lemma Day_of_UTC_midnight d :
  - msPerDay <= tz < msPerDay ->
  Day (LocalTime tz (MakeDate d 0)) = if 0 <=? tz then d else d - 1.
Proof.
  intros H. unfold LocalTime. destruct (Z.leb_spec 0 tz).
  - replace (MakeDate d 0 + tz) with (MakeDate d tz) by (unfold MakeDate; lia).
    apply Day_MakeDate. lia.
  - replace (MakeDate d 0 + tz) with (MakeDate (d - 1) (msPerDay + tz))
      by (unfold MakeDate; lia).
    apply Day_MakeDate. lia.
Qed.

End CellProperties.

(** X11. The cell of a day key (years 1 to 9999) has the class of the
    bucket of its count and a title with its count.  The date in the title
    is the day of the key when local time is UTC or ahead of it, and the
    day before when local time is behind UTC: [new Date(day)] reads the key
    as midnight UTC, and [format] prints it in local time. *)
Theorem GridCell_of_a_day_key (tz : Z) (counts : gmap string Z) (d : Z) :
  1 <= YearFromDay d <= 9999 -> - msPerDay <= tz < msPerDay ->
  GridCell tz counts (Some (dayKey tz d))
  = Some (DayCell (cellClassName (cellCount counts (dayKey tz d)))
            (cellTitle tz (midnight tz (if 0 <=? tz then d else d - 1))
               (cellCount counts (dayKey tz d)))).
Proof.
  intros Hy Ht. unfold GridCell.
  rewrite (proj2 (String.eqb_neq _ _) (dayKey_nonempty tz d)).
  rewrite Date_parse_dayKey by exact Hy.
  cbn [mbind option_bind]. cbv zeta. fold (cellCount counts (dayKey tz d)).
  f_equal. f_equal. apply cellTitle_same_day.
  rewrite Day_midnight. apply Day_of_UTC_midnight, Ht.
Qed.

(** ** The React keys of the cells *)

Lemma uint_of_char_letter_e d : uint_of_char "e" d = None.
Proof. destruct d; reflexivity. Qed.

(** A day key does not start with the letter of [empty-...]. *)
Lemma formatFields_not_empty_key y m dt rest :
  formatFields y m dt <> String "e" rest.
Proof.
  unfold formatFields. unfold addLeadingZeros at 1.
  set (n := if y >? 0 then y else 1 - y).
  assert (Hn : 0 <= n) by (subst n; destruct (Z.gtb_spec y 0); lia).
  destruct (Z.ltb_spec n 0); [lia | ]. rewrite string_app_nil.
  pose proof (parseDigits_zeros (4 - String.length (toString (Z.abs_N n)))
                (toString (Z.abs_N n))) as P.
  rewrite parseDigits_toString in P. fold (padStart0 (toString (Z.abs_N n)) 4) in P.
  assert (L : (4 <= String.length (padStart0 (toString (Z.abs_N n)) 4))%nat).
  { unfold padStart0. rewrite string_length_app, zeros_length. lia. }
  destruct (padStart0 (toString (Z.abs_N n)) 4) as [ | c p];
    [cbn in L; lia | ].
  rewrite string_app_cons. intros E. injection E as -> _.
  unfold parseDigits in P. cbn [NilEmpty.uint_of_string] in P.
  rewrite uint_of_char_letter_e in P. discriminate P.
Qed.

Lemma toString_inj a b : toString a = toString b -> a = b.
Proof.
  intros E. apply (f_equal parseDigits) in E.
  rewrite !parseDigits_toString in E. injection E as E. exact E.
Qed.

Lemma empty_key_inj (w j1 j2 : nat) :
  cellKey w j1 None = cellKey w j2 None -> j1 = j2.
Proof.
  unfold cellKey. intros E.
  apply string_app_inj_1 in E; [ | reflexivity]. destruct E as [_ E].
  apply string_app_inj_1 in E; [ | reflexivity]. destruct E as [_ E].
  apply string_app_inj_1 in E; [ | reflexivity]. destruct E as [_ E].
  apply toString_inj in E. lia.
Qed.

(** X12. For every current date (in year 2 or later), the React keys of
    the cells of a week are pairwise distinct: a day cell has its day key,
    an empty cell the key [empty-<week>-<slot>]. *)
Theorem cell_keys_of_a_week_are_distinct (tz now : Z) :
  2 <= getFullYear tz now ->
  exists weeks labels,
    calendarSkeleton tz now = Some (weeks, labels) /\
    forall (i : nat) (week : Week),
      weeks !! i = Some week -> NoDup (weekKeys i week).
Proof.
  intros Hy.
  destruct (calendarSkeleton_shape tz now)
    as (weeks & leading & trailing & fd & ld & ch & S & F & L & T & C & _).
  exists weeks, (monthLabels tz (subYears tz now 1)).
  split; [exact S | ].
  intros i week Hi. apply NoDup_alt. intros j1 j2 k H1 H2.
  unfold weekKeys in H1, H2.
  apply list_lookup_imap_Some in H1, H2.
  destruct H1 as (s1 & W1 & ->). destruct H2 as (s2 & W2 & K).
  assert (Y0 : 1 <= YearFromDay (Day (LocalTime tz (subYears tz now 1)))).
  { change (1 <= YearFromTime (LocalTime tz (subYears tz now 1))).
    rewrite <- getFullYear_eq.
    destruct (subYears_fields tz now) as (-> & _). lia. }
  assert (Slot : forall j day, week !! j = Some (Some day) ->
            cellKey i j (Some day) = day /\
            exists d, Day (LocalTime tz (subYears tz now 1)) <= d /\
              d = Day (LocalTime tz (subYears tz now 1))
                  + 7 * Z.of_nat i + Z.of_nat j
                  - getDay tz (subYears tz now 1) /\
              day = dayKey tz d).
  { intros j day W.
    destruct (grid_slot tz now weeks leading trailing i j week day F L C Hi W)
      as (d & B & E & -> & _).
    split; [ | exists d; split; [lia | split; [exact E | reflexivity]]].
    unfold cellKey.
    rewrite (proj2 (String.eqb_neq _ _) (dayKey_nonempty tz d)). reflexivity. }
  destruct s1 as [day1 | ], s2 as [day2 | ].
  - destruct (Slot j1 day1 W1) as (K1 & d1 & B1 & E1 & D1).
    destruct (Slot j2 day2 W2) as (K2 & d2 & B2 & E2 & D2).
    rewrite K1, K2, D1, D2 in K.
    apply dayKey_inj in K.
    + lia.
    + pose proof (YearFromDay_mono _ _ B1). lia.
    + pose proof (YearFromDay_mono _ _ B2). lia.
  - exfalso. destruct (Slot j1 day1 W1) as (K1 & d1 & _ & _ & D1).
    rewrite K1, D1 in K. unfold dayKey in K.
    rewrite format_yyyy_MM_dd_eq in K. unfold cellKey in K.
    rewrite !string_app_cons in K.
    exact (formatFields_not_empty_key _ _ _ _ K).
  - exfalso. destruct (Slot j2 day2 W2) as (K2 & d2 & _ & _ & D2).
    rewrite K2, D2 in K. unfold dayKey in K.
    rewrite format_yyyy_MM_dd_eq in K. unfold cellKey in K.
    rewrite !string_app_cons in K. symmetry in K.
    exact (formatFields_not_empty_key _ _ _ _ K).
  - apply (empty_key_inj i). exact K.
Qed.

(** ** [parseInt] and the selects of the dialogs *)

Lemma parseDigitsPrefix_uint u : forall a,
  parseDigitsPrefix 10 (NilEmpty.string_of_uint u) (Some a)
  = Some (uintValue u a).
Proof.
  induction u; intros a; cbn [NilEmpty.string_of_uint uintValue];
    [reflexivity | .. ]; cbn [parseDigitsPrefix];
    match goal with
    | |- context [digitOfRadix 10 ?c] =>
        let v := eval vm_compute in (digitOfRadix 10 c) in
        change (digitOfRadix 10 c) with v
    end; cbv iota; rewrite IHu; f_equal; f_equal; lia.
Qed.

Lemma uintValue_pos u : forall p,
  uintValue u (Z.pos p) = Z.pos (Pos.of_uint_acc u p).
Proof.
  induction u; intros p; cbn [uintValue Pos.of_uint_acc];
    [reflexivity | .. ];
    match goal with
    | |- uintValue _ ?a = Z.pos (Pos.of_uint_acc _ ?q) =>
        replace a with (Z.pos q) by lia
    end; apply IHu.
Qed.

Lemma uintValue_0 u : uintValue u 0 = Z.of_N (N.of_uint u).
Proof.
  induction u; cbn [uintValue]; [reflexivity | exact IHu | .. ];
    match goal with
    | |- uintValue _ ?a = _ =>
        let v := eval vm_compute in a in change a with v
    end; rewrite uintValue_pos; reflexivity.
Qed.

Lemma parseInt_minus rest :
  parseInt (String "-" rest) = parseIntUnsigned (-1) rest.
Proof. reflexivity. Qed.

Lemma parseInt_no_sign c rest :
  isWhiteSpace c = false -> c <> "-"%char -> c <> "+"%char ->
  parseInt (String c rest) = parseIntUnsigned 1 (String c rest).
Proof.
  intros W M P. unfold parseInt. cbn [trimStart]. rewrite W.
  destruct c as [[ | ] [ | ] [ | ] [ | ] [ | ] [ | ] [ | ] [ | ]];
    try reflexivity; contradiction.
Qed.

(** After the sign, the decimal digits of a number are read back. *)
Lemma parseIntUnsigned_digits sign u :
  u <> Decimal.Nil ->
  parseIntUnsigned sign (NilEmpty.string_of_uint u)
  = Int (sign * Z.of_N (N.of_uint u)).
Proof.
  intros N. rewrite <- uintValue_0. unfold parseIntUnsigned.
  destruct u as [ | u | u | u | u | u | u | u | u | u | u];
    [contradiction | .. ]; clear N; cbn [NilEmpty.string_of_uint].
  2-10: cbv beta iota zeta; cbn [parseDigitsPrefix];
    match goal with
    | |- context [digitOfRadix 10 ?c] =>
        let v := eval vm_compute in (digitOfRadix 10 c) in
        change (digitOfRadix 10 c) with v
    end; cbv iota; rewrite parseDigitsPrefix_uint; cbn [uintValue];
    f_equal; f_equal; f_equal; lia.
  (* a leading zero: the next character is a digit or there is none *)
  destruct u; cbn [NilEmpty.string_of_uint];
    cbv beta iota zeta;
    try match goal with
    | |- context [Ascii.eqb ?c "x" || Ascii.eqb ?c "X"] =>
        change (Ascii.eqb c "x" || Ascii.eqb c "X") with false
    end; cbv beta iota zeta; cbn [parseDigitsPrefix];
    repeat match goal with
    | |- context [digitOfRadix 10 ?c] =>
        let v := eval vm_compute in (digitOfRadix 10 c) in
        change (digitOfRadix 10 c) with v; cbv iota
    end; rewrite ?parseDigitsPrefix_uint; cbn [uintValue];
    f_equal; f_equal; f_equal; lia.
Qed.

Lemma toString_nonempty_uint n : N.to_uint n <> Decimal.Nil.
Proof.
  intros E. pose proof (DecimalN.Unsigned.of_to n) as H. rewrite E in H.
  cbn in H. subst n. discriminate E.
Qed.

Lemma toString_first n :
  exists c rest, toString n = String c rest /\
    isWhiteSpace c = false /\ c <> "-"%char /\ c <> "+"%char.
Proof.
  unfold toString. pose proof (toString_nonempty_uint n) as N.
  destruct (N.to_uint n); [contradiction | .. ];
    cbn [NilEmpty.string_of_uint]; eexists _, _;
    (split; [reflexivity | split; [reflexivity | split; discriminate]]).
Qed.

(** [parseInt] reads [String(n)] back, for every integer [n]. *)
Lemma parseInt_Number_toString n : parseInt (Number_toString n) = Int n.
Proof.
  unfold Number_toString.
  assert (U : forall sign,
            parseIntUnsigned sign (toString (Z.abs_N n))
            = Int (sign * Z.of_N (Z.abs_N n))).
  { intros sign. unfold toString.
    rewrite parseIntUnsigned_digits by apply toString_nonempty_uint.
    rewrite DecimalN.Unsigned.of_to. reflexivity. }
  destruct (Z.ltb_spec n 0).
  - rewrite string_app_cons, string_app_nil, parseInt_minus, U. f_equal. lia.
  - rewrite string_app_nil.
    destruct (toString_first (Z.abs_N n)) as (c & rest & E & W & M & P).
    rewrite E, (parseInt_no_sign c rest W M P), <- E, U. f_equal. lia.
Qed.


Lemma Number_toString_inj a b : Number_toString a = Number_toString b -> a = b.
Proof.
  intros E. apply (f_equal parseInt) in E.
  rewrite !parseInt_Number_toString in E. injection E as E. exact E.
Qed.

Lemma find_none_of {A} (f : A -> bool) (l : list A) :
  (forall x, x ∈ l -> f x = false) -> find f l = None.
Proof.
  induction l as [ | x l IH]; intros H; [reflexivity | ].
  cbn [find]. rewrite (H x) by apply list_elem_of_here.
  apply IH. intros y Hy. apply H, list_elem_of_further, Hy.
Qed.

Lemma includes_elem_of x (l : list string) : includes x l = true <-> x ∈ l.
Proof.
  unfold includes. rewrite existsb_exists. split.
  - intros (y & I & E). apply String.eqb_eq in E. subst y.
    apply list_elem_of_In, I.
  - intros I. exists x. split; [apply list_elem_of_In, I | apply String.eqb_refl].
Qed.

(** X13. The colour select shows, for the value of an entry of the colour
    table, the translated name of that entry, and no name for a value that
    is not in the table; the values, which are also the React keys of the
    items, are pairwise distinct. *)
Theorem selected_color_name (t : string -> string) :
  (forall key value,
     (key, value) ∈ Dialogs.COLOR_VALUES ->
     Dialogs.selectedColorName t value = Some (t key)) /\
  (forall color,
     color ∉ map snd Dialogs.COLOR_VALUES ->
     Dialogs.selectedColorName t color = None) /\
  NoDup (map Dialogs.value (Dialogs.useColors t)).
Proof.
  split; [ | split].
  - intros key value H. unfold Dialogs.COLOR_VALUES in H.
    repeat (apply elem_of_cons in H;
            destruct H as [H | H]; [injection H as -> ->; reflexivity | ]).
    apply elem_of_nil in H. contradiction.
  - intros color H. unfold Dialogs.selectedColorName.
    rewrite find_none_of; [reflexivity | ].
    intros c Hc. apply String.eqb_neq. intros E. apply H. subst color.
    unfold Dialogs.useColors in Hc. apply list_elem_of_fmap in Hc.
    destruct Hc as (entry & -> & He). cbn [Dialogs.value].
    apply list_elem_of_fmap. exists entry. split; [reflexivity | exact He].
  - apply (bool_decide_unpack _). vm_compute. exact I.
Qed.


(** X15. The locale of a request is always a supported one, provided the
    default locale is: a supported, non-empty requested locale is kept, and
    a missing, empty or unsupported one is replaced by the default. *)
Theorem request_locale_is_supported (locales : list string)
    (defaultLocale : string) (requestLocale : option string) :
  defaultLocale ∈ locales ->
  resolveRequestLocale locales defaultLocale requestLocale ∈ locales /\
  (forall locale,
     requestLocale = Some locale -> locale ∈ locales ->
     locale <> EmptyString ->
     resolveRequestLocale locales defaultLocale requestLocale = locale) /\
  (forall locale,
     requestLocale = Some locale -> locale ∉ locales ->
     resolveRequestLocale locales defaultLocale requestLocale = defaultLocale).
Proof.
  intros D. unfold resolveRequestLocale. split; [ | split].
  - destruct requestLocale as [locale | ]; [ | exact D].
    destruct (String.eqb_spec locale EmptyString); [exact D | ].
    cbn [orb]. destruct (includes locale locales) eqn:I; [ | exact D].
    cbn [negb]. apply includes_elem_of, I.
  - intros locale -> In Ne.
    rewrite (proj2 (String.eqb_neq _ _) Ne).
    rewrite (proj2 (includes_elem_of _ _) In). reflexivity.
  - intros locale -> Nin.
    destruct (includes locale locales) eqn:I.
    + apply includes_elem_of in I. contradiction.
    + rewrite orb_true_r. reflexivity.
Qed.

(** X16. The static parameters of the locale layout are the supported
    locales other than the default one, in their order: the default locale
    is never among them, every other supported locale is, and the layout
    does not call [notFound()] for any of them. *)
Theorem static_params_are_the_other_locales (locales : list string)
    (defaultLocale : string) :
  (defaultLocale ∉ generateStaticParams locales defaultLocale) /\
  (forall locale,
     locale ∈ generateStaticParams locales defaultLocale
     <-> locale ∈ locales /\ locale <> defaultLocale) /\
  sublist (generateStaticParams locales defaultLocale) locales /\
  (forall locale,
     locale ∈ generateStaticParams locales defaultLocale ->
     layoutCallsNotFound locales locale = false).
Proof.
  unfold generateStaticParams.
  assert (E : forall locale,
            locale ∈ filter (fun l => l <> defaultLocale) locales
            <-> locale ∈ locales /\ locale <> defaultLocale).
  { intros locale. rewrite list_elem_of_filter. tauto. }
  split; [ | split; [exact E | split]].
  - intros H. apply E in H. destruct H as [_ H]. apply H. reflexivity.
  - apply sublist_filter.
  - intros locale H. apply E in H. destruct H as [H _].
    unfold layoutCallsNotFound.
    rewrite (proj2 (includes_elem_of _ _) H). reflexivity.
Qed.

(** X17. For every current date of the years 2 to 9999 and every offset of
    local time of less than a day, every slot of the grid renders: an empty
    slot as an empty box, a day slot as a box with the class of the bucket
    of the number of completions of its day and a title that ends with that
    number; the date of the title is the day of the slot, or the day before
    it when local time is behind UTC. *)
Theorem every_slot_of_the_grid_renders (tz now : Z)
    (completions : list Completion) :
  2 <= getFullYear tz now <= 9999 -> - msPerDay <= tz < msPerDay ->
  exists weeks labels,
    calendarSkeleton tz now = Some (weeks, labels) /\
    forall (i j : nat) (week : Week) (slot : option string),
      weeks !! i = Some week -> week !! j = Some slot ->
      match slot with
      | None =>
          GridCell tz (completionCounts tz completions) slot = Some EmptyCell
      | Some day =>
          let count :=
            Z.of_nat
              (length
                 (filter
                    (fun c => format_yyyy_MM_dd tz (completedAt c) = day)
                    completions)) in
          exists d : Z,
            day = dayKey tz d /\
            GridCell tz (completionCounts tz completions) slot
            = Some (DayCell (cellClassName count)
                      (cellTitle tz
                         (midnight tz (if 0 <=? tz then d else d - 1))
                         count))
      end.
Proof.
  intros Hy Ht.
  destruct (calendarSkeleton_shape tz now)
    as (weeks & leading & trailing & fd & ld & ch & S & F & L & T & C & _).
  exists weeks, (monthLabels tz (subYears tz now 1)).
  split; [exact S | ].
  intros i j week [day | ] Hi Hj; [ | reflexivity].
  destruct (grid_slot tz now weeks leading trailing i j week day F L C Hi Hj)
    as (d & B & _ & -> & _).
  cbv zeta.
  change (fun c => format_yyyy_MM_dd tz (completedAt c) = dayKey tz d)
    with (fun c => dateKeyOf tz c = dayKey tz d).
  rewrite <- occurrences_filter, <- cellCount_occurrences.
  assert (Y : 1 <= YearFromDay d <= 9999).
  { pose proof (YearFromDay_mono _ _ (proj1 B)) as Y0.
    pose proof (YearFromDay_mono _ _ (proj2 B)) as Y1.
    change (YearFromDay (Day (LocalTime tz (subYears tz now 1))))
      with (YearFromTime (LocalTime tz (subYears tz now 1))) in Y0.
    change (YearFromDay (Day (LocalTime tz now)))
      with (YearFromTime (LocalTime tz now)) in Y1.
    rewrite <- getFullYear_eq in Y0, Y1.
    destruct (subYears_fields tz now) as (Fy & _). lia. }
  exists d. split; [reflexivity | ].
  unfold GridCell.
  rewrite (proj2 (String.eqb_neq _ _) (dayKey_nonempty tz d)).
  rewrite Date_parse_dayKey by exact Y.
  cbn [mbind option_bind]. cbv zeta.
  fold (cellCount (completionCounts tz completions) (dayKey tz d)).
  f_equal. f_equal. apply cellTitle_same_day.
  rewrite Day_midnight. apply Day_of_UTC_midnight, Ht.
Qed.

(** ** The further properties at concrete inputs *)

Example slot_3_of_week_0_on_2024_03_15 :
  exists d : Z,
    "2023-03-15"%string = dayKey 0 d /\ getDay 0 (midnight 0 d) = 3.
Proof.
  destruct (day_slots_lie_in_their_weekday_row 0 (noonOf 0 2024 2 15))
    as (weeks & labels & S & H).
  assert (E : match calendarSkeleton 0 (noonOf 0 2024 2 15) with
              | Some (ws, _) =>
                  match ws !! 0%nat with
                  | Some week => week !! 3%nat
                  | None => None
                  end
              | None => None
              end = Some (Some "2023-03-15"%string))
    by (vm_compute; reflexivity).
  rewrite S in E.
  destruct (weeks !! 0%nat) as [week | ] eqn:E1; [ | discriminate E].
  rename E into E2.
  destruct (H 0%nat 3%nat week _ E1 E2) as (d & _ & _ & D & G).
  exists d. split; [exact D | exact G].
Defined.

Example neutral_cell_without_completions :
  Forall (fun c => format_yyyy_MM_dd 0 (completedAt c) <> "1970-01-03"%string)
    [ {| habitId := "h1"; completedAt := 1000 |} ] /\
  getColorClass
    (cellCount (completionCounts 0 [ {| habitId := "h1"; completedAt := 1000 |} ])
       "1970-01-03")
  = "bg-neutral-100 dark:bg-neutral-800"%string.
Proof.
  assert (F : Forall
                (fun c => format_yyyy_MM_dd 0 (completedAt c)
                          <> "1970-01-03"%string)
                [ {| habitId := "h1"; completedAt := 1000 |} ]).
  { constructor; [ | constructor]. vm_compute. discriminate. }
  split; [exact F | ].
  apply (proj2 (neutral_cell_iff_no_completion 0 _ "1970-01-03") F).
Defined.

Example one_more_completion_on_1970_01_01 :
  "1970-01-02"%string
  <> format_yyyy_MM_dd 0 (completedAt {| habitId := "h"; completedAt := 5 |}) /\
  cellCount
    (completionCounts 0
       ([ {| habitId := "h"; completedAt := 1 |} ]
        ++ [ {| habitId := "h"; completedAt := 5 |} ])) "1970-01-02"
  = cellCount (completionCounts 0 [ {| habitId := "h"; completedAt := 1 |} ])
      "1970-01-02".
Proof.
  assert (N : "1970-01-02"%string
              <> format_yyyy_MM_dd 0
                   (completedAt {| habitId := "h"; completedAt := 5 |}))
    by (vm_compute; discriminate).
  split; [exact N | ].
  apply (proj1 (proj2 (one_more_completion 0
                         [ {| habitId := "h"; completedAt := 1 |} ]
                         {| habitId := "h"; completedAt := 5 |}))
           "1970-01-02"%string N).
Defined.

(** Noon of 2024-03-01 and of 2022-01-01, in UTC: one completion in the
    window of 2024-03-15 and one before it. *)
Example cells_add_up_on_2024_03_15 :
  2 <= getFullYear 0 (noonOf 0 2024 2 15) /\
  exists weeks labels,
    calendarSkeleton 0 (noonOf 0 2024 2 15) = Some (weeks, labels) /\
    cellCountsSum
      (completionCounts 0
         [ {| habitId := "h"; completedAt := noonOf 0 2024 2 1 |};
           {| habitId := "h"; completedAt := noonOf 0 2022 0 1 |} ]) weeks
    <= totalCompletions
         (completionCounts 0
            [ {| habitId := "h"; completedAt := noonOf 0 2024 2 1 |};
              {| habitId := "h"; completedAt := noonOf 0 2022 0 1 |} ]).
Proof.
  assert (H : 2 <= getFullYear 0 (noonOf 0 2024 2 15))
    by (vm_compute; discriminate).
  split; [exact H | ].
  destruct (cells_add_up_to_the_completions_of_the_window 0
              (noonOf 0 2024 2 15)
              [ {| habitId := "h"; completedAt := noonOf 0 2024 2 1 |};
                {| habitId := "h"; completedAt := noonOf 0 2022 0 1 |} ] H)
    as (weeks & labels & S & _ & L & _).
  exists weeks, labels. split; [exact S | exact L].
Defined.

Example monthLabels_distinct_on_2024_03_15 :
  2 <= getFullYear 0 (noonOf 0 2024 2 15) /\
  getDate 0 (noonOf 0 2024 2 15) <= 28 /\
  exists weeks labels,
    calendarSkeleton 0 (noonOf 0 2024 2 15) = Some (weeks, labels) /\
    NoDup (map key labels).
Proof.
  assert (H : 2 <= getFullYear 0 (noonOf 0 2024 2 15))
    by (vm_compute; discriminate).
  assert (D : getDate 0 (noonOf 0 2024 2 15) <= 28)
    by (vm_compute; discriminate).
  split; [exact H | split; [exact D | ]].
  destruct (monthLabels_up_to_the_28th 0 (noonOf 0 2024 2 15) H D)
    as (weeks & labels & S & N & _).
  exists weeks, labels. split; [exact S | exact N].
Defined.

(** Five hours behind UTC the title of the cell of 2024-03-15 says Mar 14. *)
Example title_five_hours_behind_UTC :
  1 <= YearFromDay (MakeDay 2024 2 15) <= 9999 /\
  - msPerDay <= -18000000 < msPerDay /\
  GridCell (-18000000) ∅ (Some (dayKey (-18000000) (MakeDay 2024 2 15)))
  = Some (DayCell (cellClassName 0) "Mar 14, 2024: 0 completions").
Proof.
  assert (Y : 1 <= YearFromDay (MakeDay 2024 2 15) <= 9999)
    by (vm_compute; split; discriminate).
  assert (T : - msPerDay <= -18000000 < msPerDay)
    by (vm_compute; split; [discriminate | reflexivity]).
  split; [exact Y | split; [exact T | ]].
  rewrite (GridCell_of_a_day_key (-18000000) ∅ (MakeDay 2024 2 15) Y T).
  vm_compute. reflexivity.
Defined.

Example cell_keys_on_2024_03_15 :
  2 <= getFullYear 0 (noonOf 0 2024 2 15) /\
  exists weeks labels,
    calendarSkeleton 0 (noonOf 0 2024 2 15) = Some (weeks, labels) /\
    forall (i : nat) (week : Week),
      weeks !! i = Some week -> NoDup (weekKeys i week).
Proof.
  assert (H : 2 <= getFullYear 0 (noonOf 0 2024 2 15))
    by (vm_compute; discriminate).
  split; [exact H | ].
  apply (cell_keys_of_a_week_are_distinct 0 (noonOf 0 2024 2 15) H).
Defined.

Example name_of_the_colour_teal :
  ("teal"%string, "bg-teal-500"%string) ∈ Dialogs.COLOR_VALUES /\
  Dialogs.selectedColorName (fun key => ("colour " ++ key)%string)
    "bg-teal-500"
  = Some "colour teal"%string.
Proof.
  assert (H : ("teal"%string, "bg-teal-500"%string) ∈ Dialogs.COLOR_VALUES)
    by (apply (bool_decide_unpack _); vm_compute; exact I).
  split; [exact H | ].
  apply (proj1 (selected_color_name (fun key => ("colour " ++ key)%string))
           "teal"%string "bg-teal-500"%string H).
Defined.


Example request_locale_of_an_unknown_locale :
  "en"%string ∈ ["en"; "he"; "ru"]%string /\
  resolveRequestLocale ["en"; "he"; "ru"]%string "en" (Some "fr"%string)
  ∈ ["en"; "he"; "ru"]%string.
Proof.
  assert (H : "en"%string ∈ ["en"; "he"; "ru"]%string)
    by apply list_elem_of_here.
  split; [exact H | ].
  apply (proj1 (request_locale_is_supported ["en"; "he"; "ru"]%string
                  "en" (Some "fr"%string) H)).
Defined.

Example static_params_of_three_locales :
  "he"%string ∈ generateStaticParams ["en"; "he"; "ru"]%string "en" /\
  layoutCallsNotFound ["en"; "he"; "ru"]%string "he" = false.
Proof.
  assert (H : "he"%string ∈ generateStaticParams ["en"; "he"; "ru"]%string "en")
    by (apply (bool_decide_unpack _); vm_compute; exact I).
  split; [exact H | ].
  apply (proj2 (proj2 (proj2 (static_params_are_the_other_locales
                                ["en"; "he"; "ru"]%string "en"))) _ H).
Defined.

Example slots_render_on_2024_03_15 :
  2 <= getFullYear 0 (noonOf 0 2024 2 15) <= 9999 /\
  - msPerDay <= 0 < msPerDay /\
  exists d : Z,
    "2023-03-15"%string = dayKey 0 d /\
    GridCell 0 (completionCounts 0 []) (Some "2023-03-15"%string)
    = Some (DayCell (cellClassName 0)
              (cellTitle 0 (midnight 0 (if 0 <=? 0 then d else d - 1)) 0)).
Proof.
  assert (Y : 2 <= getFullYear 0 (noonOf 0 2024 2 15) <= 9999)
    by (vm_compute; split; discriminate).
  assert (T : - msPerDay <= 0 < msPerDay)
    by (vm_compute; split; [discriminate | reflexivity]).
  split; [exact Y | split; [exact T | ]].
  destruct (every_slot_of_the_grid_renders 0 (noonOf 0 2024 2 15) [] Y T)
    as (weeks & labels & S & H).
  assert (E : match calendarSkeleton 0 (noonOf 0 2024 2 15) with
              | Some (ws, _) =>
                  match ws !! 0%nat with
                  | Some week => week !! 3%nat
                  | None => None
                  end
              | None => None
              end = Some (Some "2023-03-15"%string))
    by (vm_compute; reflexivity).
  rewrite S in E.
  destruct (weeks !! 0%nat) as [week | ] eqn:E1; [ | discriminate E].
  rename E into E2.
  exact (H 0%nat 3%nat week _ E1 E2).
Defined.
